(** * African energy data post-processing: a shallow embedding

    Source: [src/Validation/verify_mongo_data.py].

    The development follows the order of the Python module: the text
    primitives the code relies on ([str.strip], [str.lower], [in],
    [str.replace], [str.split], the numeric regular expression), the
    helpers [normalize_unit], [to_number_safe], [infer_country_serial], the
    transformation [build_normalized_docs], the upsert
    [upsert_normalized_docs] and the report [validate_collection].

    Conventions.
    - Python [str] is [string]; the model covers ASCII text (characters
      above 127 are kept as they are by [lower] and are never white space).
    - Python [float] is binary64, [spec_float] with precision 53 and
      maximal exponent 1024.
    - Python [dict] is an association list in insertion order, without
      duplicate keys (assignment to an existing key updates in place).
    - The cells of a raw table are texts, as the backup file gives them
      (it is read with [dtype=str]), or [None]; tables with cells of other
      types, which the raw collection can give, are outside the model.
      No statement here says of such a table that a call returns.
    - Code that may raise returns [result]; [Raise] carries the exception
      class. *)

From Stdlib Require Import ZArith List Bool Ascii String Lia.
From Stdlib Require Import Numbers.DecimalString Floats.SpecFloat.
Import ListNotations.

Open Scope string_scope.
Open Scope list_scope.

(* ------------------------------------------------------------------ *)
(** ** Exceptions *)

Inductive exn : Type :=
| IndexError
| OverflowError
| KeyError
| AttributeError
| TypeError.

Inductive result (A : Type) : Type :=
| Ret (a : A)
| Raise (e : exn).

Arguments Ret {A} a.
Arguments Raise {A} e.

Definition bind {A B : Type} (m : result A) (k : A -> result B) : result B :=
  match m with
  | Ret a => k a
  | Raise e => Raise e
  end.

Declare Scope py_scope.
Delimit Scope py_scope with py.
Notation "x <- m ;; k" := (bind m (fun x => k))
  (at level 61, m at next level, right associativity) : py_scope.
Open Scope py_scope.

(** [for x in l: acc.append(f(x))], stopping at the first exception. *)
Fixpoint mapM {A B : Type} (f : A -> result B) (l : list A) : result (list B) :=
  match l with
  | [] => Ret []
  | a :: l' => b <- f a ;; bs <- mapM f l' ;; Ret (b :: bs)
  end.

(* ------------------------------------------------------------------ *)
(** ** Text primitives *)

Module Text.

(** White space as [str.strip] and [str.split] see it, on ASCII:
    TAB, LF, VT, FF, CR, the separators 28 to 31, and the space. *)
Definition is_space (c : ascii) : bool :=
  let n := nat_of_ascii c in
  ((9 <=? n) && (n <=? 13) || (28 <=? n) && (n <=? 32))%nat.

Definition is_digit (c : ascii) : bool :=
  let n := nat_of_ascii c in ((48 <=? n) && (n <=? 57))%nat.

Definition lower_char (c : ascii) : ascii :=
  let n := nat_of_ascii c in
  if ((65 <=? n) && (n <=? 90))%nat then ascii_of_nat (n + 32) else c.

(** [s.lower()] *)
Fixpoint lower (s : string) : string :=
  match s with
  | EmptyString => EmptyString
  | String c r => String (lower_char c) (lower r)
  end.

Fixpoint lstrip (s : string) : string :=
  match s with
  | EmptyString => EmptyString
  | String c r => if is_space c then lstrip r else s
  end.

Fixpoint rstrip (s : string) : string :=
  match s with
  | EmptyString => EmptyString
  | String c r =>
      match rstrip r with
      | EmptyString => if is_space c then EmptyString else String c EmptyString
      | r' => String c r'
      end
  end.

(** [s.strip()] *)
Definition strip (s : string) : string := rstrip (lstrip s).

(** [needle in hay] on strings. *)
Fixpoint contains (needle hay : string) : bool :=
  String.prefix needle hay ||
  match hay with
  | EmptyString => false
  | String _ r => contains needle r
  end.

(** [s.replace] of every comma by the empty string. *)
Fixpoint remove_commas (s : string) : string :=
  match s with
  | EmptyString => EmptyString
  | String c r =>
      if Ascii.eqb c "," then remove_commas r else String c (remove_commas r)
  end.

(** [s.split()]: the maximal runs of characters that are not white space.
    [tok] is the run being read, if any. *)
Fixpoint split_from (tok : option string) (s : string) : list string :=
  match s with
  | EmptyString =>
      match tok with Some t => [t] | None => [] end
  | String c r =>
      if is_space c then
        match tok with
        | Some t => t :: split_from None r
        | None => split_from None r
        end
      else
        match tok with
        | Some t => split_from (Some (t ++ String c EmptyString)%string) r
        | None => split_from (Some (String c EmptyString)) r
        end
  end.

Definition split (s : string) : list string := split_from None s.

(** The longest prefix of digits, and what follows it. *)
Fixpoint span_digits (s : string) : string * string :=
  match s with
  | EmptyString => (EmptyString, EmptyString)
  | String c r =>
      if is_digit c then
        let (d, rest) := span_digits r in (String c d, rest)
      else (EmptyString, s)
  end.

(** [\d*\.\d+] anchored at the head of [s]: the matched text.  The
    quantifiers are greedy; giving digits back never helps, since the
    character after a run of digits is no digit. *)
Definition match_fraction (s : string) : option string :=
  let (int_part, rest) := span_digits s in
  match rest with
  | String "." rest' =>
      match span_digits rest' with
      | (EmptyString, _) => None
      | (frac, _) => Some (int_part ++ String "." frac)%string
      end
  | _ => None
  end.

(** [[-+]?\d*\.\d+] anchored at the head of [s]: the sign is tried first,
    then the match without it. *)
Definition match_signed_fraction (s : string) : option string :=
  let unsigned := match_fraction s in
  match s with
  | String c r =>
      if Ascii.eqb c "-" || Ascii.eqb c "+" then
        match match_fraction r with
        | Some m => Some (String c m)
        | None => unsigned
        end
      else unsigned
  | EmptyString => unsigned
  end.

(** [\d+] anchored at the head of [s]. *)
Definition match_digits (s : string) : option string :=
  match span_digits s with
  | (EmptyString, _) => None
  | (d, _) => Some d
  end.

(** [re.search(r"[-+]?\d*\.\d+|\d+", s)]: the text of the leftmost match,
    the first alternative tried before the second at each position. *)
Fixpoint re_search_number (s : string) : option string :=
  match match_signed_fraction s with
  | Some m => Some m
  | None =>
      match match_digits s with
      | Some m => Some m
      | None =>
          match s with
          | EmptyString => None
          | String _ r => re_search_number r
          end
      end
  end.

(** [x in l] for a list or tuple of strings. *)
Definition mem (x : string) (l : list string) : bool :=
  existsb (String.eqb x) l.

(** [str(n)] for a natural number. *)
Definition string_of_nat (n : nat) : string :=
  NilZero.string_of_uint (Nat.to_uint n).

(** [str(z)] for an integer. *)
Definition string_of_Z (z : Z) : string :=
  NilZero.string_of_int (Z.to_int z).

End Text.

Import Text.

(* ------------------------------------------------------------------ *)
(** ** Values, floats and dictionaries *)

(** binary64 *)
Definition pyfloat : Type := spec_float.

Definition prec64 : Z := 53.
Definition emax64 : Z := 1024.

(** The Python values the pipeline handles: [None], [int], [float],
    [str]. *)
Inductive value : Type :=
| VNone
| VInt (z : Z)
| VFloat (f : pyfloat)
| VStr (s : string).

Definition float_eqb (f g : pyfloat) : bool :=
  match f, g with
  | S754_zero s, S754_zero t => Bool.eqb s t
  | S754_infinity s, S754_infinity t => Bool.eqb s t
  | S754_nan, S754_nan => true
  | S754_finite s m e, S754_finite t n d =>
      Bool.eqb s t && Pos.eqb m n && Z.eqb e d
  | _, _ => false
  end.

(** Structural equality of values (field values are compared this way by
    the store). *)
Definition value_eqb (v w : value) : bool :=
  match v, w with
  | VNone, VNone => true
  | VInt a, VInt b => Z.eqb a b
  | VFloat f, VFloat g => float_eqb f g
  | VStr s, VStr t => String.eqb s t
  | _, _ => false
  end.

(** [math.isnan] on a float. *)
Definition is_nan (f : pyfloat) : bool :=
  match f with S754_nan => true | _ => false end.

(** [float(z)] for an [int]: the nearest binary64, ties to even;
    [OverflowError] when that is out of range. *)
Definition float_of_int (z : Z) : result pyfloat :=
  match binary_normalize prec64 emax64 z 0 false with
  | S754_infinity _ => Raise OverflowError
  | f => Ret f
  end.

(** Truth value of an object, as [if x] and [not x] take it. *)
Definition truthy (v : value) : bool :=
  match v with
  | VNone => false
  | VInt z => negb (Z.eqb z 0)
  | VFloat (S754_zero _) => false
  | VFloat _ => true
  | VStr s => negb (String.eqb s EmptyString)
  end.

(** A raw cell: text, or [None].  (The cells of the backup file are
    texts; cells of other types are not modelled.) *)
Definition cell : Type := option string.

Definition value_of_cell (c : cell) : value :=
  match c with
  | Some s => VStr s
  | None => VNone
  end.

Module Dict.

Section WithValue.
Context {V : Type}.

Definition t : Type := list (string * V).

(** [d.get(k)] *)
Fixpoint get (d : t) (k : string) : option V :=
  match d with
  | [] => None
  | (k', v) :: r => if String.eqb k k' then Some v else get r k
  end.

(** [k in d] *)
Definition has (d : t) (k : string) : bool :=
  match get d k with Some _ => true | None => false end.

(** [d[k] = v]: an existing key keeps its place. *)
Fixpoint set (d : t) (k : string) (v : V) : t :=
  match d with
  | [] => [(k, v)]
  | (k', v') :: r =>
      if String.eqb k k' then (k', v) :: r else (k', v') :: set r k v
  end.

(** [d.setdefault(k, v)], for the dictionary it leaves. *)
Definition setdefault (d : t) (k : string) (v : V) : t :=
  if has d k then d else set d k v.

(** [d.update(e)] *)
Definition update (d e : t) : t :=
  fold_left (fun acc kv => set acc (fst kv) (snd kv)) e d.

(** [d.keys()] *)
Definition keys (d : t) : list string := map fst d.

(** [{k: ... for ...}] and dictionary displays: the entries are assigned
    from left to right. *)
Definition of_list (l : list (string * V)) : t := update [] l.

End WithValue.

Arguments t V : clear implicits.

End Dict.

(** A document: a dictionary from field names to values. *)
Definition doc : Type := Dict.t value.

(** [d.get(k)] on a document, with [None] for a missing key. *)
Definition doc_get (d : doc) (k : string) : value :=
  match Dict.get d k with
  | Some v => v
  | None => VNone
  end.

(** Two documents with the same fields, in the same order, with the same
    values. *)
Fixpoint doc_eqb (d e : doc) : bool :=
  match d, e with
  | [], [] => true
  | (k, v) :: d', (k', w) :: e' =>
      String.eqb k k' && value_eqb v w && doc_eqb d' e'
  | _, _ => false
  end.

(* ------------------------------------------------------------------ *)
(** ** Configuration *)

(** [YEARS = [str(y) for y in range(2000, 2025)]] *)
Definition YEARS : list string := map string_of_nat (seq 2000 25).

Definition METADATA_FIELDS : list string :=
  ["country"; "country_serial"; "metric"; "unit"; "sector"; "sub_sector";
   "sub_sub_sector"; "source_link"; "source"].

Definition REQUIRED_SCHEMA : list string := METADATA_FIELDS ++ YEARS.

Definition UNIT_MAP : Dict.t (list string) :=
  Dict.of_list
    [("%", ["%"; "percent"; "percentage"]);
     ("GWh", ["gwh"; "giga watt hour"; "gwh "]);
     ("MW", ["mw"; "megawatt"]);
     ("kWh per capita", ["kwh per capita"; "kwh/capita"; "kwh per person"]);
     ("kt", ["kt"; "kilotonnes"; "kt "])].

(* ------------------------------------------------------------------ *)
(** ** The interpreter's built-ins

    [float(s)] on a string, the hash of a string and the printing of
    floats belong to the interpreter, not to the module.  The pipeline
    below takes them as parameters; this module gives instances to run it
    with. *)

Module Builtins.

Definition digit_val (c : ascii) : Z := Z.of_nat (nat_of_ascii c - 48).

(** The rest of a [digitpart], a digit having been read: digits, each
    possibly preceded by one underscore.  Returns the number read so far,
    the count of its digits and the unread text. *)
Fixpoint read_digits (acc n : Z) (s : string) : Z * Z * string :=
  match s with
  | EmptyString => (acc, n, s)
  | String c r =>
      if is_digit c then read_digits (10 * acc + digit_val c) (n + 1) r
      else if Ascii.eqb c "_" then
        match r with
        | String d r' =>
            if is_digit d
            then read_digits (10 * acc + digit_val d) (n + 1) r'
            else (acc, n, s)
        | EmptyString => (acc, n, s)
        end
      else (acc, n, s)
  end.

Definition read_digitpart (acc n : Z) (s : string) : option (Z * Z * string) :=
  match s with
  | String c r =>
      if is_digit c
      then Some (read_digits (10 * acc + digit_val c) (n + 1) r)
      else None
  | EmptyString => None
  end.

(** [number ::= [digitpart] "." digitpart | digitpart ["."]]: the digits
    as one integer, the count of digits after the point, the unread
    text. *)
Definition read_number (s : string) : option (Z * Z * string) :=
  match read_digitpart 0 0 s with
  | Some (ip, _, String "." rest) =>
      match read_digitpart ip 0 rest with
      | Some r => Some r
      | None => Some (ip, 0%Z, rest)
      end
  | Some (ip, _, rest) => Some (ip, 0%Z, rest)
  | None =>
      match s with
      | String "." rest => read_digitpart 0 0 rest
      | _ => None
      end
  end.

Definition read_sign (s : string) : bool * string :=
  match s with
  | String "-" r => (true, r)
  | String "+" r => (false, r)
  | _ => (false, s)
  end.

(** [exponent ::= ("e" | "E") [sign] digitpart], up to the end of the
    text; no exponent is exponent 0. *)
Definition read_exponent (s : string) : option Z :=
  match s with
  | EmptyString => Some 0%Z
  | String c r =>
      if Ascii.eqb c "e" || Ascii.eqb c "E" then
        let (neg, r') := read_sign r in
        match read_digitpart 0 0 r' with
        | Some (e, _, EmptyString) => Some (if neg then (- e)%Z else e)
        | _ => None
        end
      else None
  end.

(** The binary64 nearest to [n / d], ties to even, for [0 < n] and
    [0 < d]: the quotient is taken with 64 extra bits and a sticky bit. *)
Definition float_of_ratio (neg : bool) (n d : Z) : pyfloat :=
  let k := Z.max 0 (65 + Z.log2 d - Z.log2 n) in
  let n := (n * 2 ^ k)%Z in
  let q := (n / d)%Z in
  let sticky := if (n mod d =? 0)%Z then 0%Z else 1%Z in
  binary_round prec64 emax64 neg (Z.to_pos (2 * q + sticky)) (- k - 1).

(** The binary64 nearest to [m * 10 ^ e], ties to even. *)
Definition float_of_decimal (neg : bool) (m e : Z) : pyfloat :=
  if (m <=? 0)%Z then S754_zero neg
  else if (0 <=? e)%Z then
    binary_round prec64 emax64 neg (Z.to_pos (m * 10 ^ e)) 0
  else float_of_ratio neg m (10 ^ (- e)).

(** [float(s)] for a string, [None] standing for [ValueError]. *)
Definition float_of_str (s : string) : option pyfloat :=
  let (neg, body) := read_sign (strip s) in
  if mem (lower body) ["inf"; "infinity"] then Some (S754_infinity neg)
  else if String.eqb (lower body) "nan" then Some S754_nan
  else
    match read_number body with
    | Some (m, nfrac, rest) =>
        match read_exponent rest with
        | Some e => Some (float_of_decimal neg m (e - nfrac))
        | None => None
        end
    | None => None
    end.

(** *** [repr] of a float

    The shortest decimal that reads back as the same float, the nearer of
    the two candidates first; then the layout of [repr], fixed notation
    for a decimal point between positions -3 and 16 and exponent notation
    outside. *)

(** [m * 2 ^ e] as a fraction. *)
Definition fraction_of (m : positive) (e : Z) : Z * Z :=
  if (0 <=? e)%Z then (Zpos m * 2 ^ e, 1)%Z else (Zpos m, 2 ^ (- e))%Z.

(** [num / den] scaled by [10 ^ (- k)], as a fraction. *)
Definition scale10 (num den k : Z) : Z * Z :=
  if (0 <=? k)%Z then (num, den * 10 ^ k)%Z else (num * 10 ^ (- k), den)%Z.

(** The least [p], from [p] on, with [num / den < 10 ^ p]. *)
Fixpoint raise_point (fuel : nat) (num den p : Z) : Z :=
  match fuel with
  | O => p
  | S fuel' =>
      let (n, d) := scale10 num den p in
      if (d <=? n)%Z then raise_point fuel' num den (p + 1) else p
  end.

Definition decimal_point (num den : Z) : Z :=
  raise_point 6 num den ((Z.log2 num - Z.log2 den) * 30103 / 100000 - 1).

(** With [d] digits: the decimal just below and the one just above the
    value, the nearer first, each as digits and power of ten. *)
Definition candidates (num den p d : Z) : list (Z * Z) :=
  let (n, q) := scale10 num den (p - d) in
  let lo := (n / q)%Z in
  let r := (n mod q)%Z in
  if (r =? 0)%Z then [(lo, p - d)%Z]
  else if (2 * r <=? q)%Z then [(lo, p - d); (lo + 1, p - d)]%Z
  else [(lo + 1, p - d); (lo, p - d)]%Z.

Fixpoint shortest (ds : list Z) (x : pyfloat) (num den p : Z)
  : option (Z * Z) :=
  match ds with
  | [] => None
  | d :: r =>
      match find (fun c => float_eqb (float_of_decimal false (fst c) (snd c)) x)
                 (candidates num den p d) with
      | Some c => Some c
      | None => shortest r x num den p
      end
  end.

(** Trailing zeros go to the power of ten. *)
Fixpoint trim_zeros (fuel : nat) (digits k : Z) : Z * Z :=
  match fuel with
  | O => (digits, k)
  | S fuel' =>
      if (digits mod 10 =? 0)%Z then trim_zeros fuel' (digits / 10) (k + 1)
      else (digits, k)
  end.

Fixpoint zeros (n : nat) : string :=
  match n with
  | O => EmptyString
  | S n' => String "0" (zeros n')
  end.

Definition layout (digits : string) (point : Z) : string :=
  let n := Z.of_nat (String.length digits) in
  if ((-4 <? point) && (point <=? 16))%Z then
    if (point <=? 0)%Z then
      ("0." ++ zeros (Z.to_nat (- point)) ++ digits)%string
    else if (n <=? point)%Z then
      (digits ++ zeros (Z.to_nat (point - n)) ++ ".0")%string
    else
      (String.substring 0 (Z.to_nat point) digits ++ "." ++
       String.substring (Z.to_nat point) (Z.to_nat (n - point)) digits)%string
  else
    let e := (point - 1)%Z in
    let mant :=
      match digits with
      | String c EmptyString => String c EmptyString
      | String c r => String c (String "." r)
      | EmptyString => EmptyString
      end in
    let exp := string_of_Z (Z.abs e) in
    (mant ++ "e" ++ (if (e <? 0)%Z then "-" else "+") ++
     (if (Z.abs e <? 10)%Z then "0" else EmptyString) ++ exp)%string.

(** [repr] of the finite float [(-1) ^ s * m * 2 ^ e]. *)
Definition repr_finite (s : bool) (m : positive) (e : Z) : string :=
  let (num, den) := fraction_of m e in
  let p := decimal_point num den in
  let ds := map Z.of_nat (seq 1 17) in
  match shortest ds (S754_finite false m e) num den p with
  | Some (digits, k) =>
      let (digits, k) := trim_zeros 17 digits k in
      let text := string_of_Z digits in
      ((if s then "-" else EmptyString) ++
       layout text (k + Z.of_nat (String.length text)))%string
  | None => EmptyString
  end.

(** *** [round(non_null / total_docs * 100, 1)] *)

(** The integer nearest to [n / d], ties to even. *)
Definition round_half_even (n d : Z) : Z :=
  let q := (n / d)%Z in
  let r := (n mod d)%Z in
  if (2 * r <? d)%Z then q
  else if (d <? 2 * r)%Z then (q + 1)%Z
  else if Z.even q then q else (q + 1)%Z.

(** [round(x, 1)]: the float nearest to the exact value of [x] rounded
    to one decimal. *)
Definition round1 (x : pyfloat) : pyfloat :=
  match x with
  | S754_finite s m e =>
      let (num, den) := fraction_of m e in
      float_of_decimal s (round_half_even (10 * num) den) (-1)
  | _ => x
  end.

Definition round_percent (non_null total_docs : Z) : pyfloat :=
  let ratio :=
    if (non_null <=? 0)%Z then S754_zero false
    else float_of_ratio false non_null total_docs in
  round1 (SFmul prec64 emax64 ratio
                (binary_normalize prec64 emax64 100 0 false)).

(** *** [sorted] *)

(** A number as [m * 2 ^ e]. *)
Definition dyadic_of (v : value) : option (Z * Z) :=
  match v with
  | VInt z => Some (z, 0%Z)
  | VFloat (S754_zero _) => Some (0%Z, 0%Z)
  | VFloat (S754_finite s m e) => Some (if s then Zneg m else Zpos m, e)
  | _ => None
  end.

(** [v < w]; [TypeError] between a string or [None] and anything of
    another type. *)
Definition less (v w : value) : result bool :=
  match v, w with
  | VStr a, VStr b => Ret (String.ltb a b)
  | VStr _, _ | _, VStr _ | VNone, _ | _, VNone => Raise TypeError
  | VFloat S754_nan, _ | _, VFloat S754_nan => Ret false
  | VFloat (S754_infinity s), VFloat (S754_infinity t) => Ret (s && negb t)
  | VFloat (S754_infinity s), _ => Ret s
  | _, VFloat (S754_infinity t) => Ret (negb t)
  | _, _ =>
      match dyadic_of v, dyadic_of w with
      | Some (m, e), Some (n, d) =>
          let low := Z.min e d in
          Ret (m * 2 ^ (e - low) <? n * 2 ^ (d - low))%Z
      | _, _ => Raise TypeError
      end
  end.

(** [x] goes before the first element it is less than. *)
Fixpoint insert_sorted (x : value) (l : list value) : result (list value) :=
  match l with
  | [] => Ret [x]
  | y :: r =>
      b <- less x y ;;
      if b then Ret (x :: l)
      else r' <- insert_sorted x r ;; Ret (y :: r')
  end.

(** [sorted(l)], a stable sort by [<].  (On a list with a NaN the order
    depends on the comparisons the sort makes; this is one of them.) *)
Fixpoint sorted_onto (acc : list value) (l : list value)
  : result (list value) :=
  match l with
  | [] => Ret acc
  | x :: r => acc' <- insert_sorted x acc ;; sorted_onto acc' r
  end.

Definition sorted (l : list value) : result (list value) := sorted_onto [] l.

(** A string hash for one run of the interpreter (the interpreter keys
    its own per process). *)
Fixpoint hash_from (h : Z) (s : string) : Z :=
  match s with
  | EmptyString => h
  | String c r => hash_from ((h * 1000003 + Z.of_nat (nat_of_ascii c)) mod 2 ^ 61) r
  end.

Definition hash (s : string) : Z := (hash_from 7 s - 2 ^ 60)%Z.

End Builtins.

(* ------------------------------------------------------------------ *)
(** ** Raw tables *)

(** A [pandas.DataFrame] of raw rows: the column labels, and one list of
    cells per row, in column order.  Labels are distinct and every row has
    one cell per label ([well_formed]); cells are text or [None]. *)
Record DataFrame : Type := {
  columns : list string;
  rows : list (list cell)
}.

Fixpoint distinct_labels (l : list string) : bool :=
  match l with
  | [] => true
  | c :: r => negb (mem c r) && distinct_labels r
  end.

Definition well_formed (df : DataFrame) : bool :=
  distinct_labels (columns df) &&
  forallb (fun r => Nat.eqb (List.length r) (List.length (columns df))) (rows df).

(** [row.get(c)] for a row of the frame: the cell under label [c], [None]
    when there is no such label. *)
Fixpoint row_get (cols : list string) (cells : list cell) (c : string) : cell :=
  match cols, cells with
  | k :: cols', v :: cells' =>
      if String.eqb c k then v else row_get cols' cells' c
  | _, _ => None
  end.

(** [row[c]] *)
Definition row_item (cols : list string) (cells : list cell) (c : string)
  : result cell :=
  if mem c cols then Ret (row_get cols cells c) else Raise KeyError.

(** [d[k]] *)
Definition item {V : Type} (d : Dict.t V) (k : string) : result V :=
  match Dict.get d k with
  | Some v => Ret v
  | None => Raise KeyError
  end.

(* ------------------------------------------------------------------ *)
(** ** Column detection (lines 141 to 152) *)

(** [lc_map = {c.lower(): c for c in df_raw.columns}] *)
Definition lc_map_of (cols : list string) : Dict.t string :=
  Dict.of_list (map (fun c => (lower c, c)) cols).

Definition METRIC_PATTERNS : list string :=
  ["metric"; "indicator"; "series"; "name"; "variable"].

(** [any(x in k for x in ["metric", ...])] *)
Definition is_metric_name (k : string) : bool :=
  existsb (fun x => contains x k) METRIC_PATTERNS.

Definition metric_candidates_of (cols : list string) : list string :=
  filter is_metric_name (Dict.keys (lc_map_of cols)).

Definition unit_candidates_of (cols : list string) : list string :=
  filter (fun k => contains "unit" k || contains "measure" k)
         (Dict.keys (lc_map_of cols)).

Definition country_candidates_of (cols : list string) : list string :=
  filter (fun k => contains "country" k) (Dict.keys (lc_map_of cols)).

(** [has_year_cols = any(y in df_raw.columns for y in YEARS)] *)
Definition has_year_cols_of (cols : list string) : bool :=
  existsb (fun y => mem y cols) YEARS.

(** The loop of lines 167 to 170, for the column it reads: the original
    label under the first candidate whose entry in [lc_map] is not
    empty. *)
Fixpoint first_mapped (lc_map : Dict.t string) (cands : list string)
  : option string :=
  match cands with
  | [] => None
  | m :: r =>
      match Dict.get lc_map m with
      | Some c =>
          if negb (String.eqb c EmptyString) then Some c
          else first_mapped lc_map r
      | None => first_mapped lc_map r
      end
  end.

(** The column the metric is read from, when a label matches the
    heuristic. *)
Definition metric_column (cols : list string) : option string :=
  first_mapped (lc_map_of cols) (metric_candidates_of cols).

(** The selection by priority of the patterns: the first pattern of
    [METRIC_PATTERNS] that some label contains decides, and among the
    labels containing it the first in column order is taken. *)
Fixpoint first_by_pattern (patterns cols : list string) : option string :=
  match patterns with
  | [] => None
  | x :: r =>
      match find (fun c => contains x (lower c)) cols with
      | Some c => Some c
      | None => first_by_pattern r cols
      end
  end.

Definition metric_column_by_priority (cols : list string) : option string :=
  first_by_pattern METRIC_PATTERNS cols.

(* ------------------------------------------------------------------ *)
(** ** The pipeline *)

Section Pipeline.

(** [float(s)] on a string; [None] stands for [ValueError]. *)
Variable float_of_str : string -> option pyfloat.

(** [hash(s)] on a string. *)
Variable py_hash : string -> Z.

(** [repr] of a finite float that is not zero. *)
Variable repr_finite : bool -> positive -> Z -> string.

(** [str(x)] *)
Definition py_str (x : value) : string :=
  match x with
  | VNone => "None"
  | VInt z => string_of_Z z
  | VFloat S754_nan => "nan"
  | VFloat (S754_infinity s) => if s then "-inf" else "inf"
  | VFloat (S754_zero s) => if s then "-0.0" else "0.0"
  | VFloat (S754_finite s m e) => repr_finite s m e
  | VStr s => s
  end.

(** *** Helpers (lines 83 to 127) *)

(** The inner loop of [normalize_unit]: [for v in variants: if v in s]. *)
Fixpoint any_variant_in (variants : list string) (s : string) : bool :=
  match variants with
  | [] => false
  | v :: r => if contains v s then true else any_variant_in r s
  end.

(** The outer loop: the first canonical unit of the table with a variant
    in [s]. *)
Fixpoint first_canonical (table : Dict.t (list string)) (s : string)
  : option string :=
  match table with
  | [] => None
  | (canon, variants) :: r =>
      if any_variant_in variants s then Some canon else first_canonical r s
  end.

Definition normalize_unit (unit_raw : value) : result (option string) :=
  if negb (truthy unit_raw) then Ret None
  else
    let s := lower (strip (py_str unit_raw)) in
    if String.eqb s EmptyString then Ret None
    else
      match first_canonical UNIT_MAP s with
      | Some canon => Ret (Some canon)
      | None =>
          if mem s ["%"; "percent"; "percentage"] then Ret (Some "%")
          else
            match unit_raw with
            | VStr u => Ret (Some (strip u))
            | _ => Raise AttributeError
            end
      end.

(** [isinstance(x, (int, float)) and not math.isnan(x)]; [math.isnan]
    converts an [int] to a float first. *)
Definition is_number_not_nan (x : value) : result bool :=
  match x with
  | VInt z => _ <- float_of_int z ;; Ret true
  | VFloat f => Ret (negb (is_nan f))
  | _ => Ret false
  end.

(** [float(x)] for a number. *)
Definition float_of_number (x : value) : result pyfloat :=
  match x with
  | VInt z => float_of_int z
  | VFloat f => Ret f
  | _ => Raise TypeError
  end.

Definition to_number_safe (x : value) : result (option pyfloat) :=
  match x with
  | VNone => Ret None
  | _ =>
      number <- is_number_not_nan x ;;
      if number then f <- float_of_number x ;; Ret (Some f)
      else
        let s := strip (py_str x) in
        if String.eqb s EmptyString || mem (lower s) ["nan"; "n/a"; "na"]
        then Ret None
        else
          let s := remove_commas s in
          match split s with
          | [] => Raise IndexError
          | s :: _ =>
              match float_of_str s with
              | Some f => Ret (Some f)
              | None =>
                  match re_search_number s with
                  | Some g =>
                      match float_of_str g with
                      | Some f => Ret (Some f)
                      | None => Ret None
                      end
                  | None => Ret None
                  end
              end
          end
  end.

Definition infer_country_serial (country_name : cell) : option Z :=
  match country_name with
  | None => None
  | Some s =>
      if String.eqb s EmptyString then None
      else Some (Z.abs (py_hash s) mod 100000)%Z
  end.

(** *** Transformation (lines 130 to 235) *)

(** [not x] for a cell. *)
Definition cell_empty (c : cell) : bool := negb (truthy (value_of_cell c)).

(** [str(x).strip() if x and x != "None" else None] (lines 164, 185) *)
Definition clean (c : cell) : cell :=
  match c with
  | Some s =>
      if negb (String.eqb s EmptyString) && negb (String.eqb s "None")
      then Some (strip s) else None
  | None => None
  end.

Definition SKIPPED_LABELS : list string :=
  ["source"; "source_link"; "unit"; "country"; "country_serial"].

(** The fall-back loop of lines 175 to 183; [metric] is the value the
    variable holds on entry. *)
Fixpoint fallback_metric (cols_left : list string)
  (cols : list string) (cells : list cell) (metric : cell) : cell :=
  match cols_left with
  | [] => metric
  | c :: r =>
      if mem c YEARS then fallback_metric r cols cells metric
      else if mem (lower c) SKIPPED_LABELS then fallback_metric r cols cells metric
      else
        let m := row_get cols cells c in
        match m with
        | Some s =>
            if negb (String.eqb s EmptyString)
               && negb (String.eqb (strip s) EmptyString)
            then m else fallback_metric r cols cells m
        | None => fallback_metric r cols cells m
        end
  end.

(** The cell read through the first candidate of a heuristic (lines 158
    and 189). *)
Definition candidate_cell (cols : list string) (cells : list cell)
  (cand : string) : result cell :=
  c <- item (lc_map_of cols) cand ;;
  if mem c cols then row_item cols cells c else Ret None.

(** Lines 156 to 164. *)
Definition derive_country (cols : list string) (cells : list cell)
  : result cell :=
  country <-
    match country_candidates_of cols with
    | cand :: _ => candidate_cell cols cells cand
    | [] => Ret (if mem "country" cols then row_get cols cells "country" else None)
    end ;;
  Ret (clean country).

(** Lines 166 to 185. *)
Definition derive_metric (cols : list string) (cells : list cell)
  : result cell :=
  metric <-
    match metric_column cols with
    | Some c => row_item cols cells c
    | None => Ret None
    end ;;
  let metric :=
    if cell_empty metric && mem "metric" cols
    then row_get cols cells "metric" else metric in
  let metric :=
    if cell_empty metric && (0 <? List.length cols)%nat
    then fallback_metric cols cols cells metric else metric in
  Ret (clean metric).

(** Lines 187 to 192. *)
Definition derive_unit (cols : list string) (cells : list cell)
  : result (option string) :=
  unit_raw <-
    match unit_candidates_of cols with
    | cand :: _ => candidate_cell cols cells cand
    | [] => Ret (if mem "unit" cols then row_get cols cells "unit" else None)
    end ;;
  normalize_unit (value_of_cell unit_raw).

(** The inner loop of lines 217 to 220: the first label containing the
    year decides. *)
Fixpoint nested_year (cols_left : list string) (cols : list string)
  (cells : list cell) (y : string) : result (option pyfloat) :=
  match cols_left with
  | [] => Ret None
  | c :: r =>
      if contains y c
      then to_number_safe (value_of_cell (row_get cols cells c))
      else nested_year r cols cells y
  end.

Definition value_of_float (f : option pyfloat) : value :=
  match f with
  | Some x => VFloat x
  | None => VNone
  end.

(** Lines 208 to 225: [year_values], filled year after year. *)
Fixpoint year_values_from (years : list string) (cols : list string)
  (cells : list cell) (acc : doc) : result doc :=
  match years with
  | [] => Ret acc
  | y :: r =>
      v <-
        (if has_year_cols_of cols then
           if mem y cols
           then to_number_safe (value_of_cell (row_get cols cells y))
           else nested_year cols cols cells y
         else Ret None) ;;
      year_values_from r cols cells (Dict.set acc y (value_of_float v))
  end.

(** [doc["metric"] and doc["metric"].strip()] (line 232), as a truth
    value. *)
Definition has_metric (d : doc) : result bool :=
  m <- item d "metric" ;;
  if truthy m then
    match m with
    | VStr s => Ret (negb (String.eqb (strip s) EmptyString))
    | _ => Raise AttributeError
    end
  else Ret false.

(** The body of the loop over the rows: the document of one row. *)
Definition normalize_row (cols : list string) (cells : list cell)
  : result doc :=
  country <- derive_country cols cells ;;
  metric <- derive_metric cols cells ;;
  unit <- derive_unit cols cells ;;
  let base : doc :=
    Dict.of_list
      [("country", value_of_cell country);
       ("country_serial",
        match infer_country_serial country with
        | Some n => VInt n
        | None => VNone
        end);
       ("metric", value_of_cell metric);
       ("unit", value_of_cell unit);
       ("sector", value_of_cell (row_get cols cells "sector"));
       ("sub_sector", value_of_cell (row_get cols cells "sub_sector"));
       ("sub_sub_sector", value_of_cell (row_get cols cells "sub_sub_sector"));
       ("source_link", value_of_cell (row_get cols cells "source_link"));
       ("source",
        if mem "source" cols
        then value_of_cell (row_get cols cells "source")
        else VStr "Africa Energy Portal")] in
  year_values <- year_values_from YEARS cols cells [] ;;
  Ret (Dict.update base year_values).

(** The loop over the rows: [docs] grows by the documents that have a
    metric. *)
Fixpoint normalize_rows (cols : list string) (rws : list (list cell))
  : result (list doc) :=
  match rws with
  | [] => Ret []
  | cells :: r =>
      d <- normalize_row cols cells ;;
      keep <- has_metric d ;;
      docs <- normalize_rows cols r ;;
      Ret (if keep then d :: docs else docs)
  end.

Definition build_normalized_docs (df_raw : DataFrame) : result (list doc) :=
  normalize_rows (columns df_raw) (rows df_raw).

(** *** The persistent store *)

(** [pymongo.ReplaceOne(filter, replacement, upsert=...)] *)
Inductive write_op : Type :=
| ReplaceOne (filter : doc) (replacement : doc) (upsert : bool).

(** What a bulk write reports. *)
Record bulk_result : Type := {
  upserted_count : Z;
  modified_count : Z
}.

(** Modelled from the spec: the collection behind [coll] ([pymongo] and
    the database server are not under src/).  Sections 3, 4.5 and 6 of the
    specification: a collection of documents; a replace-with-upsert
    operation replaces in full the document that its key selects and is
    counted as modified, or inserts the replacement and is counted as
    newly inserted when the key selects none; the store can be read in
    full, counted by a predicate and asked for the distinct values of a
    field. *)
Definition collection : Type := list doc.

(** Modelled from the spec: the match of a key on a document.  A
    document is selected by a key when it carries the key's value under
    each field of the key (a missing field counts as [None]). *)
Definition selects (key d : doc) : bool :=
  forallb (fun kv => value_eqb (doc_get d (fst kv)) (snd kv)) key.

(** Modelled from the spec: the replacement in full.  The first
    document the key selects is replaced; [None] when the key selects no
    document. *)
Fixpoint replace_first (key replacement : doc) (coll : collection)
  : option collection :=
  match coll with
  | [] => None
  | d :: r =>
      if selects key d then Some (replacement :: r)
      else
        match replace_first key replacement r with
        | Some r' => Some (d :: r')
        | None => None
        end
  end.

(** Modelled from the spec: one replace-with-upsert, with the counts of
    documents newly inserted and modified.  A stored document is counted
    as modified when the replacement changes it; a replacement by a
    document identical to the one stored is matched and changes nothing,
    so it is not counted. *)
Definition apply_op (st : collection * bulk_result) (op : write_op)
  : collection * bulk_result :=
  let (coll, res) := st in
  match op with
  | ReplaceOne key replacement upsert =>
      match replace_first key replacement coll with
      | Some coll' =>
          let changed :=
            match find (selects key) coll with
            | Some old => negb (doc_eqb old replacement)
            | None => false
            end in
          (coll', {| upserted_count := upserted_count res;
                     modified_count :=
                       modified_count res + (if changed then 1 else 0) |})
      | None =>
          if upsert then
            (coll ++ [replacement],
             {| upserted_count := upserted_count res + 1;
                modified_count := modified_count res |})
          else (coll, res)
      end
  end.

(** Modelled from the spec: [coll.bulk_write(ops, ordered=False)], the
    operations applied one after the other, each on its own. *)
Definition bulk_write (coll : collection) (ops : list write_op)
  : collection * bulk_result :=
  fold_left apply_op ops
    (coll, {| upserted_count := 0; modified_count := 0 |}).

(** Modelled from the spec: [coll.find({})], the full scan. *)
Definition find_all (coll : collection) : list doc := coll.

(** Modelled from the spec: [coll.count_documents({field: {"$ne":
    None}})], the count of the documents with a value under the field. *)
Definition count_not_null (coll : collection) (field : string) : Z :=
  Z.of_nat
    (List.length
       (filter (fun d => negb (value_eqb (doc_get d field) VNone)) coll)).

Fixpoint add_value (v : value) (l : list value) : list value :=
  match l with
  | [] => [v]
  | w :: r => if value_eqb v w then l else w :: add_value v r
  end.

(** Modelled from the spec: [coll.distinct(field)], the values of the
    field, each once, in the order of the scan. *)
Definition distinct (coll : collection) (field : string) : list value :=
  fold_left (fun acc d => add_value (doc_get d field) acc) coll [].

(** *** Upsert (lines 238 to 258) *)

(** Lines 247 and 248: [for k in REQUIRED_SCHEMA: d.setdefault(k, None)]. *)
Definition ensure_schema (d : doc) : doc :=
  fold_left (fun acc k => Dict.setdefault acc k VNone) REQUIRED_SCHEMA d.

(** Lines 250 to 253, on the document with its schema keys. *)
Definition match_key (d : doc) : result doc :=
  if truthy (doc_get d "country") then
    country <- item d "country" ;;
    metric <- item d "metric" ;;
    Ret (Dict.of_list [("country", country); ("metric", metric)])
  else
    metric <- item d "metric" ;;
    Ret (Dict.of_list [("metric", metric);
                       ("source_link", doc_get d "source_link")]).

(** The operation the loop appends for one document. *)
Definition write_op_of (d : doc) : result write_op :=
  let d := ensure_schema d in
  key <- match_key d ;;
  Ret (ReplaceOne key d true).

(** The list [ops] after the loop. *)
Definition write_ops (docs : list doc) : result (list write_op) :=
  mapM write_op_of docs.

(** The function returns the pair of counts; the model returns the
    collection after the call as well. *)
Definition upsert_normalized_docs (coll : collection) (docs : list doc)
  : result (collection * (Z * Z)) :=
  ops <- write_ops docs ;;
  match ops with
  | [] => Ret (coll, (0, 0)%Z)
  | _ =>
      let (coll', res) := bulk_write coll ops in
      Ret (coll', (upserted_count res, modified_count res))
  end.

(** *** Validation report (lines 261 to 309) *)

(** [sorted(l)]; it raises on values that do not compare. *)
Variable py_sorted : list value -> result (list value).

(** [round(non_null / total_docs * 100, 1)] in float arithmetic. *)
Variable round_percent : Z -> Z -> pyfloat.

(** The values the report holds under its keys. *)
Inductive report_value : Type :=
| RStr (s : string)
| RInt (n : Z)
| RYears (m : Dict.t (list string))
| RUnits (m : list (value * list value))
| RList (l : list value)
| RCompleteness (m : Dict.t (Z * pyfloat)).

Definition report : Type := Dict.t report_value.

(** [[y for y in YEARS if d.get(y) is None]] *)
Definition missing_of (d : doc) : list string :=
  filter (fun y => value_eqb (doc_get d y) VNone) YEARS.

(** [f"{d.get('country')}||{d.get('metric')}"] *)
Definition report_key (d : doc) : string :=
  (py_str (doc_get d "country") ++ "||" ++ py_str (doc_get d "metric"))%string.

(** Lines 280 to 283: the body of the loop, on [missing_years]. *)
Definition note_missing (missing_years : Dict.t (list string)) (d : doc)
  : Dict.t (list string) :=
  match missing_of d with
  | [] => missing_years
  | missing => Dict.set missing_years (report_key d) missing
  end.

(** Lines 278 to 283. *)
Definition missing_years_of (docs : list doc) : Dict.t (list string) :=
  fold_left note_missing docs [].

(** [metric_units.setdefault(m, set())], then [metric_units[m].add(u)]
    when [u] is set; a set is the list of its elements in the order they
    came in. *)
Fixpoint note_unit (m u : value) (mu : list (value * list value))
  : list (value * list value) :=
  match mu with
  | [] => [(m, if truthy u then [u] else [])]
  | (m', us) :: r =>
      if value_eqb m m'
      then (m', if truthy u then add_value u us else us) :: r
      else (m', us) :: note_unit m u r
  end.

(** Lines 287 to 294. *)
Definition inconsistent_units_of (docs : list doc)
  : list (value * list value) :=
  let metric_units :=
    fold_left (fun acc d => note_unit (doc_get d "metric") (doc_get d "unit") acc)
              docs [] in
  filter (fun mu => (1 <? List.length (snd mu))%nat) metric_units.

(** Lines 303 to 306. *)
Definition completeness_of (coll : collection) (total_docs : Z)
  : Dict.t (Z * pyfloat) :=
  fold_left
    (fun acc y =>
       let non_null := count_not_null coll y in
       Dict.set acc y (non_null, round_percent non_null total_docs))
    YEARS [].

Definition validate_collection (coll : collection) : result report :=
  let docs := find_all coll in
  match docs with
  | [] =>
      Ret (Dict.of_list
             [("error", RStr "no documents found in final collection")])
  | _ =>
      let total_docs := Z.of_nat (List.length docs) in
      let report : report := Dict.set [] "total_documents" (RInt total_docs) in
      let report :=
        Dict.set report "missing_years" (RYears (missing_years_of docs)) in
      let report :=
        Dict.set report "inconsistent_units"
                 (RUnits (inconsistent_units_of docs)) in
      countries <- py_sorted (filter truthy (distinct coll "country")) ;;
      let report :=
        Dict.set report "countries_count"
                 (RInt (Z.of_nat (List.length countries))) in
      let report := Dict.set report "countries" (RList countries) in
      let report :=
        Dict.set report "completeness_by_year"
                 (RCompleteness (completeness_of coll total_docs)) in
      Ret report
  end.

End Pipeline.

(* ------------------------------------------------------------------ *)
(** ** The scraper's country pages

    Source: [src/Extraction/Energy_data_extraction.py], lines 31, 69 to
    82 and 84 to 103: the list of country slugs, the address of a country
    page and the name written to the "country" column of every scraped
    row. *)

Module Extraction.

Definition BASE_URL : string := "https://africa-energy-portal.org/country/".

Definition get_country_list : list string :=
  ["algeria"; "angola"; "benin"; "botswana"; "burkina-faso"; "burundi";
   "cameroon"; "cape-verde"; "central-african-republic"; "chad"; "comoros";
   "congo"; "djibouti"; "egypt"; "equatorial-guinea"; "eritrea"; "eswatini";
   "ethiopia"; "gabon"; "gambia"; "ghana"; "guinea"; "guinea-bissau";
   "ivory-coast"; "kenya"; "lesotho"; "liberia"; "libya"; "madagascar";
   "malawi"; "mali"; "mauritania"; "mauritius"; "morocco"; "mozambique";
   "namibia"; "niger"; "nigeria"; "rwanda"; "sao-tome-and-principe"; "senegal";
   "seychelles"; "sierra-leone"; "somalia"; "south-africa"; "south-sudan";
   "sudan"; "tanzania"; "togo"; "tunisia"; "uganda"; "zambia"; "zimbabwe"].

(** [f"{BASE_URL}{country}"] *)
Definition country_url (country : string) : string :=
  (BASE_URL ++ country)%string.

Definition is_lower (c : ascii) : bool :=
  let n := nat_of_ascii c in ((97 <=? n) && (n <=? 122))%nat.

Definition is_upper (c : ascii) : bool :=
  let n := nat_of_ascii c in ((65 <=? n) && (n <=? 90))%nat.

Definition upper_char (c : ascii) : ascii :=
  if is_lower c then ascii_of_nat (nat_of_ascii c - 32) else c.

(** [s.title()] on ASCII: a letter that follows no letter is put in upper
    case, a letter that follows a letter in lower case.  [cased] tells
    whether the character before was a letter. *)
Fixpoint title_from (cased : bool) (s : string) : string :=
  match s with
  | EmptyString => EmptyString
  | String c r =>
      if is_lower c then
        String (if cased then c else upper_char c) (title_from true r)
      else if is_upper c then
        String (if cased then lower_char c else c) (title_from true r)
      else String c (title_from false r)
  end.

Definition title (s : string) : string := title_from false s.

(** [df["country"] = country.title()] (line 101): the name the scraper
    writes to every row of a country's tables. *)
Definition country_name (country : string) : string := title country.

End Extraction.

(* ------------------------------------------------------------------ *)
(** ** Vocabulary of the statements *)

(** Strings made of white space only. *)
Fixpoint all_space (s : string) : bool :=
  match s with
  | EmptyString => true
  | String c r => is_space c && all_space r
  end.

(** The first and the last character of a string, if any, are not white
    space. *)
Definition starts_solid (v : string) : bool :=
  match v with
  | EmptyString => false
  | String a _ => negb (is_space a)
  end.

Fixpoint ends_solid (v : string) : bool :=
  match v with
  | EmptyString => false
  | String a EmptyString => negb (is_space a)
  | String _ v' => ends_solid v'
  end.

(** The last label, in column order, whose lower-cased form is [k]. *)
Definition last_labelled (cols : list string) (k : string) : option string :=
  find (fun c => String.eqb k (lower c)) (rev cols).

(** Some variant of the list occurs in [s]. *)
Definition matches_unit (variants : list string) (s : string) : Prop :=
  exists v, In v variants /\ contains v s = true.

(** [canon] is the first canonical unit of the table, in table order,
    with a variant that occurs in [s]. *)
Definition first_matching_unit (table : Dict.t (list string))
  (s canon : string) : Prop :=
  exists pre variants post,
    table = pre ++ (canon, variants) :: post /\
    matches_unit variants s /\
    forall c vs, In (c, vs) pre -> ~ matches_unit vs s.

(** No variant of the table occurs in [s]. *)
Definition no_matching_unit (table : Dict.t (list string)) (s : string)
  : Prop :=
  forall c vs, In (c, vs) table -> ~ matches_unit vs s.

(** A key joins a list of keys at its end, unless it is there. *)
Definition add_key (ks : list string) (k : string) : list string :=
  if mem k ks then ks else ks ++ [k].

(** The natural key of a document: country and metric when the country
    is set, metric and source link otherwise. *)
Definition natural_key (d : doc) : doc :=
  if truthy (doc_get d "country")
  then [("country", doc_get d "country"); ("metric", doc_get d "metric")]
  else [("metric", doc_get d "metric");
        ("source_link", doc_get d "source_link")].

Definition filter_of (op : write_op) : doc :=
  match op with ReplaceOne key _ _ => key end.

Definition replacement_of (op : write_op) : doc :=
  match op with ReplaceOne _ d _ => d end.


(** The document lacks the value of some year. *)
Definition has_missing_year (d : doc) : bool :=
  match missing_of d with
  | [] => false
  | _ => true
  end.

(** The text holds a character that is neither white space nor a
    comma. *)
Fixpoint has_payload (s : string) : bool :=
  match s with
  | EmptyString => false
  | String c r => negb (is_space c) && negb (Ascii.eqb c ",") || has_payload r
  end.

(** The document has a metric that is not empty once trimmed. *)
Definition has_metric_text (d : doc) : bool :=
  match doc_get d "metric" with
  | VStr s => negb (String.eqb (strip s) EmptyString)
  | _ => false
  end.

(** The metric derived from the row (lines 166 to 185) is a text that is
    not empty. *)
Definition row_has_metric (cols : list string) (cells : list cell) : bool :=
  match derive_metric cols cells with
  | Ret (Some s) => negb (String.eqb s EmptyString)
  | _ => false
  end.

(** The cell read through a heuristic on the labels: the lower-cased
    labels are walked in column order up to the first that satisfies
    [P], and the cell is that of the last label with this lower-cased
    form; [None] when no label satisfies [P]. *)
Definition read_by (P : string -> bool) (cols : list string)
  (cells : list cell) : cell :=
  match find P (map lower cols) with
  | Some k =>
      match last_labelled cols k with
      | Some c => row_get cols cells c
      | None => None
      end
  | None => None
  end.

(** The cell holds no text, or white space only. *)
Definition cell_blank (c : cell) : bool :=
  match c with
  | Some s => String.eqb (strip s) EmptyString
  | None => true
  end.

(** The first column, in column order, that is no year and none of the
    skipped labels, and whose cell is not blank. *)
Definition fallback_column (cols : list string) (cells : list cell)
  : option string :=
  find (fun c => negb (mem c YEARS) && negb (mem (lower c) SKIPPED_LABELS)
                 && negb (cell_blank (row_get cols cells c))) cols.

(** [metric_units.get(m)] on the mapping of lines 287 to 293. *)
Fixpoint units_get (mu : list (value * list value)) (m : value)
  : option (list value) :=
  match mu with
  | [] => None
  | (m', us) :: r => if value_eqb m m' then Some us else units_get r m
  end.

(** A text or [None]: what the normalizer writes under the metric and
    the unit. *)
Definition textual (v : value) : bool :=
  match v with
  | VNone | VStr _ => true
  | _ => false
  end.

(** A cell that makes the value of a year raise: a cell of commas and white
    space under a label that holds the year. *)
Definition blocking_cell (cols : list string) (cells : list cell) : Prop :=
  exists y c s,
    In y YEARS /\ In c cols /\ contains y c = true /\
    row_get cols cells c = Some s /\
    strip s <> EmptyString /\ has_payload s = false.

(* ------------------------------------------------------------------ *)
(** ** Sample data *)

Module Samples.

(** Two labels match the metric heuristic: "Name" through the fourth
    pattern, "Metric" through the first. *)
Definition ambiguous_columns : list string := ["Name"; "Metric"].

Definition ambiguous_row : list cell := [Some "Kenya"; Some "Access"].

(** A wide table whose cell for the year 2000 holds a single comma. *)
Definition comma_frame : DataFrame :=
  {| columns := ["Indicator"; "2000"];
     rows := [[Some "Electricity access"; Some ","]] |}.

(** The table of section 8 of the specification, with a second row that
    has no metric. *)
Definition kenya_frame : DataFrame :=
  {| columns := ["Country"; "Indicator"; "Unit"; "2000"; "2001"];
     rows := [[Some "Kenya"; Some "Electricity Access"; Some "%";
               Some "32.1"; Some "35,0 (p)"];
              [Some "Kenya"; Some "  "; Some "%"; Some "1"; Some "2"]] |}.

(** The document of the first row of [kenya_frame], with the sample hash
    and the values 32.1 and 350.0 as floats. *)
Definition kenya_doc : doc :=
  [("country", VStr "Kenya"); ("country_serial", VInt 78319);
   ("metric", VStr "Electricity Access"); ("unit", VStr "%");
   ("sector", VNone); ("sub_sector", VNone); ("sub_sub_sector", VNone);
   ("source_link", VNone); ("source", VStr "Africa Energy Portal");
   ("2000", VFloat (S754_finite false 4517673376206029 (-47)));
   ("2001", VFloat (S754_finite false 6157265115545600 (-44)))]
  ++ map (fun y => (y, VNone)) (skipn 2 YEARS).

(** Two documents without a country, for the same metric, from two
    sources; the second has a value for the year 2000. *)
Definition orphan_a : doc :=
  ensure_schema [("metric", VStr "Access"); ("source_link", VStr "a")].

Definition orphan_b : doc :=
  ensure_schema
    [("metric", VStr "Access"); ("source_link", VStr "b");
     ("2000", VFloat (S754_finite false 4503599627370496 (-52)))].

(** A document whose country is the empty string. *)
Definition blank_country : doc :=
  [("country", VStr EmptyString); ("metric", VStr "Access");
   ("source_link", VStr "a")].

(** A table whose only year label carries a unit: no label is a year of
    [YEARS] as such. *)
Definition nested_only_frame : DataFrame :=
  {| columns := ["Indicator"; "2000 (GWh)"];
     rows := [[Some "Generation"; Some "12.5"]] |}.

(** A table whose single row has no metric: the cell under the only
    column the metric could come from is empty. *)
Definition no_metric_frame : DataFrame :=
  {| columns := ["Country"; "Notes"];
     rows := [[Some "Kenya"; Some EmptyString]] |}.

(** A stored document for Kenya's electricity access, with another unit
    and a field that is not of the schema. *)
Definition kenya_old : doc :=
  [("country", VStr "Kenya"); ("metric", VStr "Electricity Access");
   ("unit", VStr "MW"); ("note", VStr "stale")].




(** Two documents of one metric with two units. *)
Definition gwh_doc : doc :=
  [("metric", VStr "Generation"); ("unit", VStr "GWh")].

Definition mw_doc : doc :=
  [("metric", VStr "Generation"); ("unit", VStr "MW")].

End Samples.

(* ------------------------------------------------------------------ *)
(** * Properties *)

(** ** Text *)

Module TextFacts.

Lemma prefix_cons (a b : ascii) (v s : string) :
  String.prefix (String a v) (String b s) = Ascii.eqb a b && String.prefix v s.
Proof.
  simpl. destruct (ascii_dec a b) as [->|n].
  - now rewrite Ascii.eqb_refl.
  - apply Ascii.eqb_neq in n. now rewrite n.
Qed.

Lemma prefix_empty_r (v : string) :
  String.prefix v EmptyString = String.eqb v EmptyString.
Proof. now destruct v. Qed.

Lemma prefix_refl (s : string) : String.prefix s s = true.
Proof.
  induction s as [|c s IH]; [reflexivity|].
  now rewrite prefix_cons, Ascii.eqb_refl.
Qed.

Lemma contains_cons (v : string) (c : ascii) (s : string) :
  contains v (String c s) = String.prefix v (String c s) || contains v s.
Proof. reflexivity. Qed.

Lemma contains_refl (s : string) : contains s s = true.
Proof.
  destruct s as [|c s]; [reflexivity|].
  now rewrite contains_cons, prefix_refl.
Qed.

Lemma contains_empty_r (v : string) :
  contains v EmptyString = String.eqb v EmptyString.
Proof. simpl. rewrite orb_false_r. apply prefix_empty_r. Qed.

(** A prefix of a prefix. *)
Lemma prefix_app_l (v w s : string) :
  String.prefix (v ++ w) s = true -> String.prefix v s = true.
Proof.
  revert s; induction v as [|a v IH]; intros s H.
  - now destruct s.
  - destruct s as [|b s]; [discriminate|].
    change ((String a v ++ w)%string) with (String a (v ++ w)) in H.
    rewrite prefix_cons in *.
    apply andb_true_iff in H as [-> H]. now rewrite (IH _ H).
Qed.

Lemma contains_app_l (v w s : string) :
  contains (v ++ w) s = true -> contains v s = true.
Proof.
  induction s as [|c s IH]; intros H.
  - rewrite contains_empty_r in *. apply String.eqb_eq in H.
    destruct v; [reflexivity|discriminate].
  - rewrite contains_cons in *. apply orb_true_iff in H as [H|H].
    + now rewrite (prefix_app_l _ _ _ H).
    + rewrite (IH H). apply orb_true_r.
Qed.

Lemma rstrip_empty_iff (s : string) :
  rstrip s = EmptyString <-> all_space s = true.
Proof.
  induction s as [|c s IH]; simpl; [tauto|].
  destruct (rstrip s) eqn:E.
  - destruct (is_space c); simpl.
    + split; [intros _; now apply IH|reflexivity].
    + split; discriminate.
  - split; [discriminate|].
    intros H. apply andb_true_iff in H as [_ H]. apply IH in H. discriminate.
Qed.

Lemma rstrip_cons (c : ascii) (s : string) :
  rstrip (String c s) =
  if all_space s
  then (if is_space c then EmptyString else String c EmptyString)
  else String c (rstrip s).
Proof.
  simpl. destruct (all_space s) eqn:A.
  - apply rstrip_empty_iff in A. now rewrite A.
  - destruct (rstrip s) eqn:E; [|reflexivity].
    apply rstrip_empty_iff in E. congruence.
Qed.

Lemma is_space_lower (c : ascii) : is_space (lower_char c) = is_space c.
Proof.
  destruct c as [[] [] [] [] [] [] [] []]; reflexivity.
Qed.

Lemma all_space_lower (s : string) : all_space (lower s) = all_space s.
Proof.
  induction s as [|c s IH]; simpl; [reflexivity|].
  now rewrite is_space_lower, IH.
Qed.

Lemma lower_lstrip (s : string) : lower (lstrip s) = lstrip (lower s).
Proof.
  induction s as [|c s IH]; simpl; [reflexivity|].
  rewrite is_space_lower. now destruct (is_space c).
Qed.

Lemma lower_rstrip (s : string) : lower (rstrip s) = rstrip (lower s).
Proof.
  induction s as [|c s IH]; [reflexivity|].
  change (lower (String c s)) with (String (lower_char c) (lower s)).
  rewrite !rstrip_cons, all_space_lower, is_space_lower.
  destruct (all_space s).
  - now destruct (is_space c).
  - simpl. now rewrite IH.
Qed.

Lemma lower_strip (s : string) : lower (strip s) = strip (lower s).
Proof. unfold strip. now rewrite lower_rstrip, lower_lstrip. Qed.

Lemma ends_solid_cons (a : ascii) (v : string) :
  ends_solid (String a v) =
  match v with
  | EmptyString => negb (is_space a)
  | _ => ends_solid v
  end.
Proof. reflexivity. Qed.

Lemma prefix_all_space (v s : string) :
  ends_solid v = true -> all_space s = true -> String.prefix v s = false.
Proof.
  revert v; induction s as [|c s IH]; intros v Hv Hs.
  - destruct v; [discriminate|reflexivity].
  - destruct v as [|a v]; [discriminate|].
    rewrite prefix_cons. simpl in Hs. apply andb_true_iff in Hs as [Hc Hs].
    rewrite ends_solid_cons in Hv. destruct v as [|b v].
    + destruct (Ascii.eqb a c) eqn:E; [|reflexivity].
      apply Ascii.eqb_eq in E. subst. now rewrite Hc in Hv.
    + rewrite (IH _ Hv Hs). apply andb_false_r.
Qed.

Lemma contains_all_space (v s : string) :
  ends_solid v = true -> all_space s = true -> contains v s = false.
Proof.
  intros Hv; induction s as [|c s IH]; intros Hs.
  - rewrite contains_empty_r. now destruct v.
  - rewrite contains_cons, (prefix_all_space _ _ Hv Hs).
    simpl in Hs. apply andb_true_iff in Hs as [_ Hs]. now rewrite IH.
Qed.

Lemma prefix_rstrip (v s : string) :
  ends_solid v = true -> String.prefix v (rstrip s) = String.prefix v s.
Proof.
  revert v; induction s as [|c s IH]; intros v Hv; [reflexivity|].
  destruct v as [|a v]; [discriminate|].
  rewrite rstrip_cons, ends_solid_cons in *.
  destruct (all_space s) eqn:A.
  - destruct v as [|b v].
    + destruct (is_space c) eqn:C; rewrite !prefix_cons.
      * rewrite prefix_empty_r. simpl.
        destruct (Ascii.eqb a c) eqn:E; [|reflexivity].
        apply Ascii.eqb_eq in E. subst. now rewrite C in Hv.
      * now destruct s.
    + rewrite (prefix_cons a c), (prefix_all_space _ _ Hv A), andb_false_r.
      destruct (is_space c); [reflexivity|].
      rewrite prefix_cons. simpl. apply andb_false_r.
  - rewrite !prefix_cons. destruct v as [|b v].
    + now destruct (rstrip s), s.
    + now rewrite (IH _ Hv).
Qed.

Lemma contains_rstrip (v s : string) :
  ends_solid v = true -> contains v (rstrip s) = contains v s.
Proof.
  intros Hv; induction s as [|c s IH]; [reflexivity|].
  rewrite contains_cons, <- (prefix_rstrip v (String c s) Hv), rstrip_cons.
  destruct (all_space s) eqn:A.
  - rewrite (contains_all_space _ _ Hv A), orb_false_r.
    destruct (is_space c).
    + rewrite contains_empty_r, prefix_empty_r. reflexivity.
    + rewrite contains_cons, contains_empty_r.
      destruct v; [discriminate|]. apply orb_false_r.
  - now rewrite contains_cons, IH.
Qed.

Lemma contains_lstrip (v s : string) :
  starts_solid v = true -> contains v (lstrip s) = contains v s.
Proof.
  intros Hv; induction s as [|c s IH]; [reflexivity|].
  simpl lstrip. destruct (is_space c) eqn:C; [|reflexivity].
  rewrite IH, contains_cons. destruct v as [|a v]; [discriminate|].
  rewrite prefix_cons. simpl in Hv.
  destruct (Ascii.eqb a c) eqn:E; [|reflexivity].
  apply Ascii.eqb_eq in E. subst. now rewrite C in Hv.
Qed.

(** A text with solid ends occurs in [s] exactly when it occurs in [s]
    stripped. *)
Lemma contains_strip (v s : string) :
  starts_solid v = true -> ends_solid v = true ->
  contains v (strip s) = contains v s.
Proof.
  intros Hs He. unfold strip.
  now rewrite (contains_rstrip _ _ He), (contains_lstrip _ _ Hs).
Qed.

End TextFacts.

(** ** Lists *)

Module ListFacts.

Lemma find_app {A : Type} (P : A -> bool) (l l' : list A) :
  find P (l ++ l') =
  match find P l with
  | Some x => Some x
  | None => find P l'
  end.
Proof.
  induction l as [|a l IH]; simpl; [reflexivity|].
  now destruct (P a).
Qed.

Lemma fold_left_cons {A B : Type} (f : A -> B -> A) (x : B) (l : list B)
  (a : A) :
  fold_left f (x :: l) a = fold_left f l (f a x).
Proof. reflexivity. Qed.

Lemma find_map {A B : Type} (f : A -> B) (P : B -> bool) (l : list A) :
  find P (map f l) = option_map f (find (fun a => P (f a)) l).
Proof.
  induction l as [|a l IH]; simpl; [reflexivity|].
  now destruct (P (f a)).
Qed.

(** The first element kept by [filter] is the first with the property. *)
Lemma head_filter {A : Type} (P : A -> bool) (l : list A) :
  match filter P l with
  | [] => None
  | x :: _ => Some x
  end = find P l.
Proof.
  induction l as [|a l IH]; simpl; [reflexivity|].
  now destruct (P a).
Qed.

(** Some element with the property is found from either end. *)
Lemma find_rev_some {A : Type} (P : A -> bool) (l : list A) (x : A) :
  In x l -> P x = true -> exists y, find P (rev l) = Some y.
Proof.
  intros Hin HP. destruct (find P (rev l)) as [y|] eqn:F; [now exists y|].
  apply in_rev in Hin. rewrite (find_none _ _ F _ Hin) in HP. discriminate.
Qed.

End ListFacts.

Import ListFacts.

(** ** Dictionaries *)

Module DictFacts.

Section WithValue.
Context {V : Type}.
Implicit Types (d e : Dict.t V) (k : string) (v : V).

Lemma has_keys d k : Dict.has d k = mem k (Dict.keys d).
Proof.
  unfold Dict.has. induction d as [|[k' v'] d IH]; simpl; [reflexivity|].
  unfold mem in IH. destruct (String.eqb k k'); [reflexivity|exact IH].
Qed.

Lemma get_set d k v k' :
  Dict.get (Dict.set d k v) k' =
  if String.eqb k' k then Some v else Dict.get d k'.
Proof.
  induction d as [|[k0 v0] d IH]; simpl; [reflexivity|].
  destruct (String.eqb k k0) eqn:E; simpl.
  - apply String.eqb_eq in E. subst k0.
    now destruct (String.eqb k' k).
  - rewrite IH. destruct (String.eqb k' k0) eqn:E0; [|reflexivity].
    apply String.eqb_eq in E0. subst k0.
    now rewrite String.eqb_sym, E.
Qed.

Lemma keys_set d k v :
  Dict.keys (Dict.set d k v) =
  if Dict.has d k then Dict.keys d else Dict.keys d ++ [k].
Proof.
  unfold Dict.has, Dict.keys.
  induction d as [|[k0 v0] d IH]; simpl; [reflexivity|].
  destruct (String.eqb k k0); simpl; [reflexivity|].
  rewrite IH. now destruct (Dict.get d k).
Qed.

Lemma get_setdefault d k v k' :
  Dict.get (Dict.setdefault d k v) k' =
  match Dict.get d k' with
  | Some w => Some w
  | None => if String.eqb k' k then Some v else None
  end.
Proof.
  unfold Dict.setdefault, Dict.has.
  destruct (Dict.get d k) as [w|] eqn:E.
  - destruct (Dict.get d k') eqn:E'; [reflexivity|].
    destruct (String.eqb k' k) eqn:Ek; [|reflexivity].
    apply String.eqb_eq in Ek. congruence.
  - rewrite get_set. destruct (String.eqb k' k) eqn:Ek.
    + apply String.eqb_eq in Ek. subst. now rewrite E.
    + now destruct (Dict.get d k').
Qed.

Lemma keys_setdefault d k v :
  Dict.keys (Dict.setdefault d k v) =
  if Dict.has d k then Dict.keys d else Dict.keys d ++ [k].
Proof.
  unfold Dict.setdefault. destruct (Dict.has d k) eqn:E; [reflexivity|].
  now rewrite keys_set, E.
Qed.

(** The value [update] leaves under a key is the last one assigned. *)
Lemma get_update d e k :
  Dict.get (Dict.update d e) k =
  match find (fun kv => String.eqb k (fst kv)) (rev e) with
  | Some kv => Some (snd kv)
  | None => Dict.get d k
  end.
Proof.
  unfold Dict.update. revert d; induction e as [|[k0 v0] e IH]; intros d.
  - reflexivity.
  - simpl fold_left. rewrite IH. simpl rev. rewrite find_app.
    destruct (find _ (rev e)); [reflexivity|]. simpl.
    rewrite get_set. now destruct (String.eqb k k0).
Qed.

Lemma find_keys_absent (P : string -> bool) d k :
  find P (Dict.keys d) = None -> Dict.has d k = true -> P k = false.
Proof.
  rewrite has_keys. unfold mem. intros Hf Hm.
  apply existsb_exists in Hm as (x & Hin & Hx).
  apply String.eqb_eq in Hx. subst x.
  exact (find_none _ _ Hf _ Hin).
Qed.

(** The first key with a property, after [update]: keys keep the place
    of their first assignment. *)
Lemma find_keys_update (P : string -> bool) d e :
  find P (Dict.keys (Dict.update d e)) =
  match find P (Dict.keys d) with
  | Some k => Some k
  | None => find P (map fst e)
  end.
Proof.
  unfold Dict.update. revert d; induction e as [|[k0 v0] e IH]; intros d.
  - simpl. now destruct (find P (Dict.keys d)).
  - simpl fold_left. rewrite IH, keys_set. simpl map. simpl find.
    destruct (Dict.has d k0) eqn:H.
    + destruct (find P (Dict.keys d)) eqn:F; [reflexivity|].
      now rewrite (find_keys_absent P d k0 F H).
    + rewrite find_app. destruct (find P (Dict.keys d)); [reflexivity|].
      simpl. now destruct (P k0).
Qed.

Lemma keys_set_add d k v :
  Dict.keys (Dict.set d k v) = add_key (Dict.keys d) k.
Proof. unfold add_key. now rewrite keys_set, has_keys. Qed.

Lemma keys_setdefault_add d k v :
  Dict.keys (Dict.setdefault d k v) = add_key (Dict.keys d) k.
Proof. unfold add_key. now rewrite keys_setdefault, has_keys. Qed.

(** [update] appends the keys that are new, in the order they come. *)
Lemma keys_update d e :
  Dict.keys (Dict.update d e) = fold_left add_key (Dict.keys e) (Dict.keys d).
Proof.
  unfold Dict.update. revert d; induction e as [|[k v] e IH]; intros d.
  - reflexivity.
  - simpl. now rewrite IH, keys_set_add.
Qed.

End WithValue.

End DictFacts.

(** ** Column detection *)

Module Detection.

Lemma lc_map_get (cols : list string) (k : string) :
  Dict.get (lc_map_of cols) k = last_labelled cols k.
Proof.
  unfold lc_map_of, Dict.of_list, last_labelled.
  rewrite DictFacts.get_update, <- map_rev, find_map. simpl.
  now destruct (find _ (rev cols)).
Qed.

Lemma lc_map_find_key (P : string -> bool) (cols : list string) :
  find P (Dict.keys (lc_map_of cols)) = find P (map lower cols).
Proof.
  unfold lc_map_of, Dict.of_list.
  rewrite DictFacts.find_keys_update, map_map. reflexivity.
Qed.

Lemma lower_empty (c : string) : lower c = EmptyString -> c = EmptyString.
Proof. now destruct c. Qed.

(** The key found first is mapped to a label that is not empty. *)
Lemma first_key_mapped (cols : list string) (k : string) :
  find is_metric_name (map lower cols) = Some k ->
  exists c, last_labelled cols k = Some c /\ c <> EmptyString.
Proof.
  intros F. apply find_some in F as [Hin Hk].
  apply in_map_iff in Hin as (c0 & Hc0 & Hin).
  destruct (find_rev_some (fun c => String.eqb k (lower c)) cols c0 Hin)
    as [c Hc].
  - rewrite Hc0. apply String.eqb_refl.
  - exists c. split; [exact Hc|].
    apply find_some in Hc as [_ Hc]. apply String.eqb_eq in Hc.
    intros ->. simpl in Hc. rewrite Hc in Hk. discriminate Hk.
Qed.

(** The column [metric_column] finds, by the raw order of the labels. *)
Lemma metric_column_eq (cols : list string) :
  metric_column cols =
  match find is_metric_name (map lower cols) with
  | Some k => last_labelled cols k
  | None => None
  end.
Proof.
  unfold metric_column, metric_candidates_of.
  pose proof (head_filter is_metric_name (Dict.keys (lc_map_of cols))) as H.
  rewrite lc_map_find_key in H.
  destruct (filter is_metric_name (Dict.keys (lc_map_of cols))) as [|m r].
  - now rewrite <- H.
  - rewrite <- H. simpl. rewrite lc_map_get.
    destruct (first_key_mapped cols m (eq_sym H)) as (c & -> & Hc).
    apply String.eqb_neq in Hc. now rewrite Hc.
Qed.

(** C1, as the code has it.  The metric is read from the column found by
    walking the lower-cased labels in raw column order and stopping at the
    first one that contains any of the five patterns; which pattern it
    contains, and the order of the patterns, play no role.  (Of several
    labels with the same lower-cased form, the last one is read.) *)
Theorem metric_column_raw_order (cols : list string) :
  metric_column cols =
  match find is_metric_name (map lower cols) with
  | Some k => last_labelled cols k
  | None => None
  end.
Proof. exact (metric_column_eq cols). Qed.

(** With labels that differ in their lower-cased forms, this is the first
    label, in raw column order, that matches the heuristic. *)
Lemma metric_column_first_match (cols : list string) :
  distinct_labels (map lower cols) = true ->
  metric_column cols = find (fun c => is_metric_name (lower c)) cols.
Proof.
  intros D. rewrite metric_column_eq, find_map.
  induction cols as [|c cols IH]; [reflexivity|].
  simpl in D. apply andb_true_iff in D as [Dc D]. specialize (IH D).
  simpl find. destruct (is_metric_name (lower c)) eqn:E.
  - simpl. unfold last_labelled. simpl rev. rewrite find_app.
    destruct (find _ (rev cols)) as [c'|] eqn:F.
    + apply find_some in F as [Hin Hc']. apply String.eqb_eq in Hc'.
      apply in_rev in Hin. apply negb_true_iff in Dc.
      assert (mem (lower c) (map lower cols) = true) as M; [|congruence].
      apply existsb_exists. exists (lower c'). split.
      * now apply in_map.
      * rewrite Hc'. apply String.eqb_refl.
    + simpl. now rewrite String.eqb_refl.
  - destruct (find (fun a => is_metric_name (lower a)) cols) as [c1|] eqn:F;
      [|reflexivity].
    simpl in IH |- *. unfold last_labelled in IH |- *. simpl rev.
    rewrite find_app, IH. reflexivity.
Qed.

(** Against C1 as worded: with the labels "Name" and "Metric"
    in this order the metric is read from "Name", the first label in raw
    column order, though "metric" comes first among the patterns. *)
Lemma metric_column_priority_counterexample :
  metric_column Samples.ambiguous_columns = Some "Name" /\
  metric_column_by_priority Samples.ambiguous_columns = Some "Metric" /\
  derive_metric Samples.ambiguous_columns Samples.ambiguous_row
  = Ret (Some "Kenya").
Proof. repeat split. Qed.

End Detection.

(** ** Unit normalizer *)

Module Units.

Import TextFacts.

Lemma any_variant_in_iff (variants : list string) (s : string) :
  any_variant_in variants s = true <-> matches_unit variants s.
Proof.
  unfold matches_unit. induction variants as [|v r IH]; simpl.
  - split; [discriminate|]. now intros (v & [] & _).
  - destruct (contains v s) eqn:E.
    + split; [|reflexivity]. intros _. exists v. auto.
    + rewrite IH. split.
      * intros (w & Hin & Hw). exists w. auto.
      * intros (w & [<-|Hin] & Hw); [congruence|]. exists w. auto.
Qed.

Lemma first_canonical_first (table : Dict.t (list string)) (s canon : string) :
  first_matching_unit table s canon -> first_canonical table s = Some canon.
Proof.
  intros (pre & variants & post & -> & Hm & Hpre).
  induction pre as [|[c vs] pre IH]; simpl.
  - apply any_variant_in_iff in Hm. now rewrite Hm.
  - destruct (any_variant_in vs s) eqn:E.
    + apply any_variant_in_iff in E. exfalso.
      apply (Hpre c vs); [now left|exact E].
    + apply IH. intros c' vs' Hin. apply (Hpre c' vs'). now right.
Qed.

Lemma first_canonical_none (table : Dict.t (list string)) (s : string) :
  no_matching_unit table s -> first_canonical table s = None.
Proof.
  unfold no_matching_unit. induction table as [|[c vs] table IH]; intros H.
  - reflexivity.
  - simpl. destruct (any_variant_in vs s) eqn:E.
    + apply any_variant_in_iff in E. exfalso.
      apply (H c vs); [now left|exact E].
    + apply IH. intros c' vs' Hin. apply (H c' vs'). now right.
Qed.

(** The loop finds a unit exactly when the table has a first matching
    unit, and that one. *)
Lemma first_canonical_some (table : Dict.t (list string)) (s canon : string) :
  first_canonical table s = Some canon -> first_matching_unit table s canon.
Proof.
  induction table as [|[c vs] table IH]; simpl; [discriminate|].
  destruct (any_variant_in vs s) eqn:E.
  - intros [= <-]. exists [], vs, table. repeat split.
    + now apply any_variant_in_iff.
    + contradiction.
  - intros H. destruct (IH H) as (pre & variants & post & -> & Hm & Hpre).
    exists ((c, vs) :: pre), variants, post. repeat split; [exact Hm|].
    intros c' vs' [[= <- <-]|Hin] Hm'.
    + apply any_variant_in_iff in Hm'. congruence.
    + exact (Hpre c' vs' Hin Hm').
Qed.

Lemma first_canonical_none_inv (table : Dict.t (list string)) (s : string) :
  first_canonical table s = None -> no_matching_unit table s.
Proof.
  unfold no_matching_unit.
  induction table as [|[c vs] table IH]; simpl; [contradiction|].
  destruct (any_variant_in vs s) eqn:E; [discriminate|].
  intros H c' vs' [[= <- <-]|Hin] Hm.
  - apply any_variant_in_iff in Hm. congruence.
  - exact (IH H c' vs' Hin Hm).
Qed.

Lemma UNIT_MAP_entries :
  UNIT_MAP =
  [("%", ["%"; "percent"; "percentage"]);
   ("GWh", ["gwh"; "giga watt hour"; "gwh "]);
   ("MW", ["mw"; "megawatt"]);
   ("kWh per capita", ["kwh per capita"; "kwh/capita"; "kwh per person"]);
   ("kt", ["kt"; "kilotonnes"; "kt "])].
Proof. reflexivity. Qed.

(** A variant that prolongs an earlier variant of its list adds nothing. *)
Lemma prolonged_variant (v w s : string) :
  contains v s = false -> contains (v ++ w) s = false.
Proof.
  intros H. destruct (contains (v ++ w) s) eqn:E; [|reflexivity].
  apply contains_app_l in E. congruence.
Qed.

(** White space around the text does not change the unit found: the
    variants that end in a space prolong a variant that does not. *)
Lemma first_canonical_strip (s : string) :
  first_canonical UNIT_MAP (strip s) = first_canonical UNIT_MAP s.
Proof.
  rewrite UNIT_MAP_entries. cbn [first_canonical any_variant_in].
  rewrite !(contains_strip "%"), !(contains_strip "percent"),
    !(contains_strip "percentage"), !(contains_strip "gwh"),
    !(contains_strip "giga watt hour"), !(contains_strip "mw"),
    !(contains_strip "megawatt"), !(contains_strip "kwh per capita"),
    !(contains_strip "kwh/capita"), !(contains_strip "kwh per person"),
    !(contains_strip "kt"), !(contains_strip "kilotonnes") by reflexivity.
  destruct (contains "gwh" s) eqn:G; [reflexivity|].
  pose proof (prolonged_variant "gwh" " " s G) as G1.
  pose proof (prolonged_variant "gwh" " " (strip s)) as G2.
  cbn [append] in G1, G2. rewrite G1, G2 by (now rewrite contains_strip).
  destruct (contains "kt" s) eqn:K; [reflexivity|].
  pose proof (prolonged_variant "kt" " " s K) as K1.
  pose proof (prolonged_variant "kt" " " (strip s)) as K2.
  cbn [append] in K1, K2. rewrite K1, K2 by (now rewrite contains_strip).
  reflexivity.
Qed.

(** When no variant occurs in the text, the text is none of the three
    spellings of the percent sign either. *)
Lemma no_canonical_no_percent (s : string) :
  first_canonical UNIT_MAP s = None ->
  mem s ["%"; "percent"; "percentage"] = false.
Proof.
  rewrite UNIT_MAP_entries. cbn [first_canonical any_variant_in]. intros H.
  destruct (contains "%" s) eqn:E1; [discriminate|].
  destruct (contains "percent" s) eqn:E2; [discriminate|].
  destruct (contains "percentage" s) eqn:E3; [discriminate|].
  unfold mem. cbn [existsb].
  destruct (String.eqb s "%") eqn:Q1;
    [apply String.eqb_eq in Q1; subst; discriminate|].
  destruct (String.eqb s "percent") eqn:Q2;
    [apply String.eqb_eq in Q2; subst; discriminate|].
  destruct (String.eqb s "percentage") eqn:Q3;
    [apply String.eqb_eq in Q3; subst; discriminate|].
  reflexivity.
Qed.

End Units.

(** ** Helpers *)

Section HelperProperties.

Variable float_of_str : string -> option pyfloat.
Variable repr_finite : bool -> positive -> Z -> string.

Lemma lower_is_empty (s : string) :
  String.eqb (lower s) EmptyString = String.eqb s EmptyString.
Proof. now destruct s. Qed.

(** What [normalize_unit] computes on a string. *)
Lemma normalize_unit_str (u : string) :
  normalize_unit repr_finite (VStr u) =
  if String.eqb (strip u) EmptyString then Ret None
  else
    match first_canonical UNIT_MAP (lower u) with
    | Some canon => Ret (Some canon)
    | None => Ret (Some (strip u))
    end.
Proof.
  unfold normalize_unit. simpl truthy. simpl py_str.
  rewrite negb_involutive, lower_is_empty.
  destruct (String.eqb u EmptyString) eqn:U.
  - apply String.eqb_eq in U. now subst u.
  - destruct (String.eqb (strip u) EmptyString); [reflexivity|].
    rewrite TextFacts.lower_strip, Units.first_canonical_strip.
    destruct (first_canonical UNIT_MAP (lower u)) eqn:F; [reflexivity|].
    rewrite <- Units.first_canonical_strip in F.
    now rewrite (Units.no_canonical_no_percent _ F).
Qed.

(** C3.  On [None], and on a string that is empty once trimmed,
    [normalize_unit] returns [None].  On any other string it returns the
    first canonical unit of [UNIT_MAP], in table order, one of whose
    variants occurs in the lower-cased input; when no variant occurs, it
    returns the input trimmed, never [None].  On a string it always
    returns: no case raises. *)
Theorem normalize_unit_spec :
  normalize_unit repr_finite VNone = Ret None /\
  forall u : string,
    (strip u = EmptyString -> normalize_unit repr_finite (VStr u) = Ret None) /\
    (strip u <> EmptyString ->
     forall canon, first_matching_unit UNIT_MAP (lower u) canon ->
     normalize_unit repr_finite (VStr u) = Ret (Some canon)) /\
    (strip u <> EmptyString ->
     no_matching_unit UNIT_MAP (lower u) ->
     normalize_unit repr_finite (VStr u) = Ret (Some (strip u))) /\
    (exists r, normalize_unit repr_finite (VStr u) = Ret r).
Proof.
  split; [reflexivity|]. intros u. rewrite normalize_unit_str.
  repeat split.
  - intros ->. reflexivity.
  - intros Hu canon Hc. apply String.eqb_neq in Hu. rewrite Hu.
    now rewrite (Units.first_canonical_first _ _ _ Hc).
  - intros Hu Hn. apply String.eqb_neq in Hu. rewrite Hu.
    now rewrite (Units.first_canonical_none _ _ Hn).
  - destruct (String.eqb (strip u) EmptyString); [now eexists|].
    destruct (first_canonical UNIT_MAP (lower u)); now eexists.
Qed.

(** *** Numeric coercer *)

Lemma split_from_token (tok s : string) : split_from (Some tok) s <> [].
Proof.
  revert tok; induction s as [|c s IH]; intros tok; simpl.
  - discriminate.
  - destruct (is_space c); [discriminate|apply IH].
Qed.

(** [s.split()] is empty exactly on white space. *)
Lemma split_nil_iff (s : string) : split s = [] <-> all_space s = true.
Proof.
  unfold split. induction s as [|c s IH]; simpl; [tauto|].
  destruct (is_space c); simpl; [exact IH|].
  split; [|discriminate]. intros H. now apply split_from_token in H.
Qed.

(** What [to_number_safe] computes on a string. *)
Lemma to_number_safe_str (s : string) :
  to_number_safe float_of_str repr_finite (VStr s) =
  let t := strip s in
  if String.eqb t EmptyString || mem (lower t) ["nan"; "n/a"; "na"]
  then Ret None
  else
    match split (remove_commas t) with
    | [] => Raise IndexError
    | tok :: _ =>
        Ret match float_of_str tok with
            | Some f => Some f
            | None =>
                match re_search_number tok with
                | Some g => float_of_str g
                | None => None
                end
            end
    end.
Proof.
  unfold to_number_safe. simpl.
  destruct (_ || _); [reflexivity|].
  destruct (split _) as [|tok r]; [reflexivity|].
  destruct (float_of_str tok); [reflexivity|].
  destruct (re_search_number tok) as [g|]; [|reflexivity].
  now destruct (float_of_str g).
Qed.

(** On a string, [to_number_safe] raises exactly when the text, once
    trimmed, is not empty, is none of the markers of a missing value, and
    holds nothing but commas and white space; the exception is
    [IndexError], from [s.split()[0]]. *)
Lemma to_number_safe_raises_iff (s : string) (e : exn) :
  to_number_safe float_of_str repr_finite (VStr s) = Raise e <->
  e = IndexError /\
  strip s <> EmptyString /\
  mem (lower (strip s)) ["nan"; "n/a"; "na"] = false /\
  all_space (remove_commas (strip s)) = true.
Proof.
  rewrite to_number_safe_str. cbv zeta.
  destruct (String.eqb (strip s) EmptyString) eqn:E.
  - apply String.eqb_eq in E. simpl. split; [discriminate|]. tauto.
  - apply String.eqb_neq in E. rewrite orb_false_l.
    destruct (mem (lower (strip s)) _) eqn:M.
    + cbv iota. split; [discriminate|]. intros (_ & _ & H & _). discriminate.
    + cbv iota.
      destruct (split (remove_commas (strip s))) as [|tok r] eqn:S.
      * apply split_nil_iff in S. split.
        -- intros [= <-]. auto.
        -- now intros (-> & _).
      * split; [discriminate|]. intros (_ & _ & _ & H).
        apply split_nil_iff in H. congruence.
Qed.

(** C2, at the input that breaks it.  A cell that holds a single comma is
    not empty, the commas are removed, nothing is left to split, and
    [s.split()[0]] raises [IndexError] outside of any [try]. *)
Theorem to_number_safe_comma_raises :
  to_number_safe float_of_str repr_finite (VStr ",") = Raise IndexError.
Proof. reflexivity. Qed.

(** C4, as the code has it.  A float that is not NaN, finite or
    infinite, is returned as it is; NaN gives [None]; an integer whose
    nearest float is finite is returned as that float. *)
Theorem to_number_safe_numeric :
  (forall f : pyfloat,
      is_nan f = false ->
      to_number_safe float_of_str repr_finite (VFloat f) = Ret (Some f)) /\
  to_number_safe float_of_str repr_finite (VFloat S754_nan) = Ret None /\
  (forall (z : Z) (f : pyfloat),
      float_of_int z = Ret f ->
      to_number_safe float_of_str repr_finite (VInt z) = Ret (Some f)).
Proof.
  repeat split.
  - intros f Hf. unfold to_number_safe. simpl. now rewrite Hf.
  - intros z f Hz. unfold to_number_safe. simpl. now rewrite Hz.
Qed.

End HelperProperties.

(** ** Schema normalizer *)

Section NormalizerProperties.

Variable float_of_str : string -> option pyfloat.
Variable py_hash : string -> Z.
Variable repr_finite : bool -> positive -> Z -> string.

Lemma year_values_keys (cols : list string) (cells : list cell)
  (years : list string) (acc yv : doc) :
  year_values_from float_of_str repr_finite years cols cells acc = Ret yv ->
  Dict.keys yv = fold_left add_key years (Dict.keys acc).
Proof.
  revert acc; induction years as [|y r IH]; intros acc H; simpl in H.
  - now injection H as <-.
  - destruct (if has_year_cols_of cols then _ else _) as [v|e];
      [|discriminate].
    simpl in H. apply IH in H. now rewrite DictFacts.keys_set_add in H.
Qed.

(** The document of a row has the keys of the schema, in the order of
    [REQUIRED_SCHEMA]. *)
Lemma normalize_row_keys (cols : list string) (cells : list cell) (d : doc) :
  normalize_row float_of_str py_hash repr_finite cols cells = Ret d ->
  Dict.keys d = REQUIRED_SCHEMA.
Proof.
  unfold normalize_row. intros H.
  destruct (derive_country cols cells) as [country|]; [|discriminate].
  destruct (derive_metric cols cells) as [metric|]; [|discriminate].
  destruct (derive_unit repr_finite cols cells) as [unit|]; [|discriminate].
  cbn [bind] in H.
  destruct (year_values_from _ _ _ _ _ _) as [yv|] eqn:Y; [|discriminate].
  cbn [bind] in H. injection H as <-.
  apply year_values_keys in Y.
  rewrite DictFacts.keys_update, Y.
  unfold Dict.of_list. rewrite DictFacts.keys_update. reflexivity.
Qed.

(** The documents returned are those of the rows, in the order of the
    rows, without the ones that have no metric. *)
Lemma normalize_rows_filter (cols : list string) (rws : list (list cell))
  (docs : list doc) :
  normalize_rows float_of_str py_hash repr_finite cols rws = Ret docs ->
  exists ds,
    mapM (normalize_row float_of_str py_hash repr_finite cols) rws = Ret ds /\
    docs = filter (fun d => match has_metric d with
                            | Ret true => true
                            | _ => false
                            end) ds.
Proof.
  revert docs; induction rws as [|cells r IH]; intros docs H; simpl in H.
  - injection H as <-. now exists [].
  - destruct (normalize_row _ _ _ cols cells) as [d|] eqn:D; [|discriminate].
    cbn [bind] in H.
    destruct (has_metric d) as [keep|] eqn:K; [|discriminate].
    cbn [bind] in H.
    destruct (normalize_rows _ _ _ cols r) as [docs'|]; [|discriminate].
    cbn [bind] in H. injection H as <-.
    destruct (IH docs' eq_refl) as (ds & M & ->).
    exists (d :: ds). simpl. rewrite D. cbn [bind]. rewrite M. cbn [bind].
    split; [reflexivity|]. rewrite K. now destruct keep.
Qed.

Lemma has_metric_true (d : doc) :
  has_metric d = Ret true ->
  exists s, doc_get d "metric" = VStr s /\ strip s <> EmptyString.
Proof.
  unfold has_metric, item, doc_get.
  destruct (Dict.get d "metric") as [m|]; [|discriminate].
  cbn [bind]. destruct (truthy m); [|discriminate].
  destruct m as [|z|f|s]; try discriminate.
  intros [= H]. exists s. split; [reflexivity|].
  apply negb_true_iff in H. now apply String.eqb_neq.
Qed.

(** Every document returned has the keys of the schema and a metric that
    is not empty once trimmed. *)
Lemma build_normalized_docs_emitted (df : DataFrame) (docs : list doc) (d : doc) :
  build_normalized_docs float_of_str py_hash repr_finite df = Ret docs ->
  In d docs ->
  Dict.keys d = REQUIRED_SCHEMA /\
  exists s, doc_get d "metric" = VStr s /\ strip s <> EmptyString.
Proof.
  unfold build_normalized_docs. intros H Hin.
  apply normalize_rows_filter in H as (ds & M & ->).
  apply filter_In in Hin as [Hin K].
  split.
  - clear K. revert ds M Hin.
    induction (rows df) as [|cells r IH]; intros ds M Hin; simpl in M.
    + injection M as <-. contradiction.
    + destruct (normalize_row _ _ _ _ cells) as [d0|] eqn:D; [|discriminate].
      cbn [bind] in M.
      destruct (mapM _ r) as [ds'|]; [|discriminate].
      cbn [bind] in M. injection M as <-.
      destruct Hin as [<-|Hin].
      * exact (normalize_row_keys _ _ _ D).
      * exact (IH ds' eq_refl Hin).
  - apply has_metric_true.
    destruct (has_metric d) as [[]|]; [reflexivity|discriminate..].
Qed.

(** C5, at the input that breaks it.  The single row has a metric, yet no
    document is returned: the comma under "2000" makes [to_number_safe]
    raise, and the exception leaves [build_normalized_docs]. *)
Theorem build_normalized_docs_comma_raises :
  build_normalized_docs float_of_str py_hash repr_finite Samples.comma_frame
  = Raise IndexError.
Proof. reflexivity. Qed.

End NormalizerProperties.

(** ** Upsert engine *)

Module Upsert.

Lemma float_eqb_refl (f : pyfloat) : float_eqb f f = true.
Proof.
  destruct f; simpl; rewrite ?Bool.eqb_reflx, ?Pos.eqb_refl, ?Z.eqb_refl;
    reflexivity.
Qed.

Lemma value_eqb_refl (v : value) : value_eqb v v = true.
Proof.
  destruct v; simpl;
    rewrite ?Z.eqb_refl, ?float_eqb_refl, ?String.eqb_refl; reflexivity.
Qed.

(** [setdefault] over a list of keys: a key that is there keeps its
    value, a listed key that is missing gets [None]. *)
Lemma get_setdefaults (ks : list string) (d : doc) (k : string) :
  Dict.get (fold_left (fun acc k => Dict.setdefault acc k VNone) ks d) k =
  match Dict.get d k with
  | Some w => Some w
  | None => if mem k ks then Some VNone else None
  end.
Proof.
  revert d; induction ks as [|k0 ks IH]; intros d; simpl.
  - now destruct (Dict.get d k).
  - rewrite IH, DictFacts.get_setdefault.
    destruct (Dict.get d k); [reflexivity|].
    now destruct (String.eqb k k0).
Qed.

Lemma setdefaults_present (ks : list string) (d : doc) :
  (forall k, In k ks -> Dict.has d k = true) ->
  fold_left (fun acc k => Dict.setdefault acc k VNone) ks d = d.
Proof.
  induction ks as [|k0 ks IH]; intros H; simpl; [reflexivity|].
  unfold Dict.setdefault at 2. rewrite (H k0) by now left.
  apply IH. intros k Hk. apply H. now right.
Qed.

Lemma doc_get_ensure_schema (d : doc) (k : string) :
  doc_get (ensure_schema d) k = doc_get d k.
Proof.
  unfold doc_get, ensure_schema. rewrite get_setdefaults.
  destruct (Dict.get d k); [reflexivity|].
  now destruct (mem k REQUIRED_SCHEMA).
Qed.

Lemma mem_spec (k : string) (l : list string) :
  mem k l = true <-> In k l.
Proof.
  unfold mem. rewrite existsb_exists. split.
  - intros (x & Hin & Hx). apply String.eqb_eq in Hx. now subst.
  - intros Hin. exists k. split; [exact Hin|apply String.eqb_refl].
Qed.

Lemma get_ensure_schema_mem (d : doc) (k : string) :
  mem k REQUIRED_SCHEMA = true ->
  Dict.get (ensure_schema d) k = Some (doc_get d k).
Proof.
  intros Hk. unfold ensure_schema, doc_get. rewrite get_setdefaults, Hk.
  now destruct (Dict.get d k).
Qed.

(** After lines 247 and 248 every key of the schema is in the document,
    with the value it had or with an explicit [None]. *)
Lemma get_ensure_schema (d : doc) (k : string) :
  In k REQUIRED_SCHEMA ->
  Dict.get (ensure_schema d) k = Some (doc_get d k).
Proof. intros Hk. apply get_ensure_schema_mem. now apply mem_spec. Qed.

(** A document that has the keys of the schema is left as it is. *)
Lemma ensure_schema_complete (d : doc) :
  Dict.keys d = REQUIRED_SCHEMA -> ensure_schema d = d.
Proof.
  intros H. apply setdefaults_present. intros k Hk.
  rewrite DictFacts.has_keys, H. now apply mem_spec.
Qed.

Lemma In_add_key (ks : list string) (k x : string) :
  In x (add_key ks k) <-> In x ks \/ x = k.
Proof.
  unfold add_key. destruct (mem k ks) eqn:M.
  - apply mem_spec in M. split; [auto|]. intros [H| ->]; assumption.
  - rewrite in_app_iff. simpl. intuition congruence.
Qed.

Lemma In_add_keys (l ks : list string) (x : string) :
  In x (fold_left add_key l ks) <-> In x ks \/ In x l.
Proof.
  revert ks; induction l as [|k l IH]; intros ks; simpl; [tauto|].
  rewrite IH, In_add_key. intuition congruence.
Qed.

Lemma keys_setdefaults (ks : list string) (d : doc) :
  Dict.keys (fold_left (fun acc k => Dict.setdefault acc k VNone) ks d) =
  fold_left add_key ks (Dict.keys d).
Proof.
  revert d; induction ks as [|k ks IH]; intros d; [reflexivity|].
  rewrite !fold_left_cons, IH. now rewrite DictFacts.keys_setdefault_add.
Qed.

(** The keys after lines 247 and 248: those of the document, then the
    keys of the schema it lacked. *)
Lemma keys_ensure_schema (d : doc) :
  Dict.keys (ensure_schema d) = fold_left add_key REQUIRED_SCHEMA (Dict.keys d).
Proof. unfold ensure_schema. apply keys_setdefaults. Qed.

Lemma match_key_ensure_schema (d : doc) :
  match_key (ensure_schema d) = Ret (natural_key d).
Proof.
  unfold match_key, natural_key, item.
  rewrite (doc_get_ensure_schema d "country").
  rewrite (get_ensure_schema_mem d "country") by reflexivity.
  rewrite (get_ensure_schema_mem d "metric") by reflexivity.
  cbn [bind]. rewrite (doc_get_ensure_schema d "source_link").
  now destruct (truthy (doc_get d "country")).
Qed.

Lemma write_op_of_natural_key (d : doc) :
  write_op_of d = Ret (ReplaceOne (natural_key d) (ensure_schema d) true).
Proof. unfold write_op_of. now rewrite match_key_ensure_schema. Qed.

Lemma write_ops_natural_key (docs : list doc) :
  write_ops docs =
  Ret (map (fun d => ReplaceOne (natural_key d) (ensure_schema d) true) docs).
Proof.
  unfold write_ops. induction docs as [|d docs IH]; [reflexivity|].
  cbn [mapM map]. now rewrite write_op_of_natural_key, IH.
Qed.

(** What a replace-with-upsert does to the collection. *)
Lemma replace_first_some (key repl : doc) (coll coll' : collection) :
  replace_first key repl coll = Some coll' ->
  exists pre old post,
    coll = pre ++ old :: post /\ coll' = pre ++ repl :: post /\
    selects key old = true /\ Forall (fun d => selects key d = false) pre.
Proof.
  revert coll'; induction coll as [|d r IH]; intros coll' H; simpl in H.
  - discriminate.
  - destruct (selects key d) eqn:S.
    + injection H as <-. now exists [], d, r.
    + destruct (replace_first key repl r) as [r'|]; [|discriminate].
      injection H as <-.
      destruct (IH r' eq_refl) as (pre & old & post & -> & -> & So & Hpre).
      exists (d :: pre), old, post. repeat split; auto.
Qed.








(** The first document the key selects is the one replaced. *)
Lemma replace_first_at (key repl old : doc) (pre post : collection) :
  selects key old = true ->
  Forall (fun d => selects key d = false) pre ->
  replace_first key repl (pre ++ old :: post) = Some (pre ++ repl :: post).
Proof.
  intros Ho Hpre. induction Hpre as [|d pre Hd _ IH]; simpl.
  - now rewrite Ho.
  - now rewrite Hd, IH.
Qed.


(** The engine submits one replacement per document, all in one call. *)
Lemma upsert_submits (coll : collection) (docs : list doc) :
  upsert_normalized_docs coll docs
  = Ret (let (coll', res) :=
           bulk_write coll
             (map (fun d => ReplaceOne (natural_key d) (ensure_schema d) true)
                  docs) in
         (coll', (upserted_count res, modified_count res))).
Proof.
  unfold upsert_normalized_docs. rewrite write_ops_natural_key.
  cbn [bind]. destruct docs as [|d docs]; [reflexivity|].
  cbn [map]. now destruct (bulk_write coll _).
Qed.

(** What one call on one document does to the collection and what it
    reports. *)
Lemma upsert_one (coll : collection) (d : doc) :
  upsert_normalized_docs coll [d] =
  match replace_first (natural_key d) (ensure_schema d) coll with
  | Some coll' =>
      Ret (coll',
           (0, match find (selects (natural_key d)) coll with
               | Some old => if doc_eqb old (ensure_schema d) then 0 else 1
               | None => 0
               end)%Z)
  | None => Ret (coll ++ [ensure_schema d], (1, 0)%Z)
  end.
Proof.
  rewrite upsert_submits. cbn [map bulk_write fold_left apply_op].
  destruct (replace_first _ _ coll); [|reflexivity].
  cbn [upserted_count modified_count].
  destruct (find _ coll) as [old|]; [|reflexivity].
  now destruct (doc_eqb old (ensure_schema d)).
Qed.

End Upsert.

(** C7.  For every batch the engine submits one [ReplaceOne] with
    [upsert=True] per document, in one bulk write: its filter is the
    natural key of the document and its replacement the whole document,
    with its schema keys.  The natural key is the pair of country and
    metric when the country is a string that is not empty, and the pair
    of metric and source link when the country is [None] (or missing) or
    the empty string.  For one document, the call puts the document as it
    is in the place of the first document of the store that its key
    selects, and inserts nothing; when the key selects none it adds the
    document at the end and reports one insertion.  The document stored
    has the fields of the one submitted: no field of the document
    replaced is kept. *)
Theorem upsert_keyed_by_natural_key :
  (forall (coll : collection) (docs : list doc),
      upsert_normalized_docs coll docs
      = Ret (let (coll', res) :=
               bulk_write coll
                 (map (fun d =>
                         ReplaceOne (natural_key d) (ensure_schema d) true)
                      docs) in
             (coll', (upserted_count res, modified_count res)))) /\
  (forall (d : doc) (s : string),
      doc_get d "country" = VStr s -> s <> EmptyString ->
      natural_key d = [("country", VStr s); ("metric", doc_get d "metric")]) /\
  (forall d : doc,
      doc_get d "country" = VNone \/ doc_get d "country" = VStr EmptyString ->
      natural_key d = [("metric", doc_get d "metric");
                       ("source_link", doc_get d "source_link")]) /\
  (forall (d old : doc) (pre post : collection),
      selects (natural_key d) old = true ->
      Forall (fun x => selects (natural_key d) x = false) pre ->
      exists modified,
        upsert_normalized_docs (pre ++ old :: post) [d]
        = Ret (pre ++ ensure_schema d :: post, (0, modified)%Z)) /\
  (forall (d : doc) (coll : collection),
      Forall (fun x => selects (natural_key d) x = false) coll ->
      upsert_normalized_docs coll [d]
      = Ret (coll ++ [ensure_schema d], (1, 0)%Z)) /\
  (forall (d : doc) (k : string),
      doc_get (ensure_schema d) k = doc_get d k).
Proof.
  split; [exact Upsert.upsert_submits|]. split; [|split; [|split; [|split]]].
  - intros d s Hc Hs. unfold natural_key. rewrite Hc. simpl.
    apply String.eqb_neq in Hs. now rewrite Hs.
  - intros d [Hc|Hc]; unfold natural_key; now rewrite Hc.
  - intros d old pre post Ho Hpre. rewrite Upsert.upsert_one.
    rewrite (Upsert.replace_first_at _ _ _ _ _ Ho Hpre). eexists. reflexivity.
  - intros d coll Hn. rewrite Upsert.upsert_one.
    destruct (replace_first _ _ coll) as [coll'|] eqn:R; [|reflexivity].
    exfalso. apply Upsert.replace_first_some in R
      as (pre & old & post & -> & _ & Ho & _).
    rewrite Forall_forall in Hn.
    rewrite (Hn old) in Ho; [discriminate|].
    apply in_or_app. right. now left.
  - exact Upsert.doc_get_ensure_schema.
Qed.


(** ** The schema of the documents *)

Section SchemaProperties.

Variable float_of_str : string -> option pyfloat.
Variable py_hash : string -> Z.
Variable repr_finite : bool -> positive -> Z -> string.

(** C6.  Every document that [build_normalized_docs] returns has the keys
    of [REQUIRED_SCHEMA], no other key, each once and in that order; a
    value that is not set is an explicit [None].  For every batch
    [upsert_normalized_docs] submits one replacement per document, in
    which every key of the schema is present, with the value the document
    had or with an explicit [None]; the keys of the replacement are those
    of the schema and no other whenever the document had no key outside
    the schema, and the documents of the normalizer are submitted as they
    are. *)
Theorem required_schema_keys :
  (forall (df : DataFrame) (docs : list doc) (d : doc),
      build_normalized_docs float_of_str py_hash repr_finite df = Ret docs ->
      In d docs -> Dict.keys d = REQUIRED_SCHEMA) /\
  (forall docs : list doc,
      exists ops,
        write_ops docs = Ret ops /\
        map replacement_of ops = map ensure_schema docs) /\
  (forall (d : doc) (k : string),
      In k REQUIRED_SCHEMA ->
      Dict.get (ensure_schema d) k = Some (doc_get d k)) /\
  (forall d : doc,
      (forall k, In k (Dict.keys d) -> In k REQUIRED_SCHEMA) ->
      forall k, In k (Dict.keys (ensure_schema d)) <-> In k REQUIRED_SCHEMA) /\
  (forall (df : DataFrame) (docs : list doc) (ops : list write_op)
          (op : write_op),
      build_normalized_docs float_of_str py_hash repr_finite df = Ret docs ->
      write_ops docs = Ret ops -> In op ops ->
      Dict.keys (replacement_of op) = REQUIRED_SCHEMA).
Proof.
  split; [|split; [|split; [|split]]].
  - intros df docs d H Hin.
    exact (proj1 (build_normalized_docs_emitted _ _ _ df docs d H Hin)).
  - intros docs. eexists. split; [apply Upsert.write_ops_natural_key|].
    rewrite map_map. reflexivity.
  - exact Upsert.get_ensure_schema.
  - intros d Hd k. rewrite Upsert.keys_ensure_schema, Upsert.In_add_keys.
    split; [intros [H|H]; auto|auto].
  - intros df docs ops op H W Hin.
    rewrite Upsert.write_ops_natural_key in W. injection W as <-.
    apply in_map_iff in Hin as (d & <- & Hin). cbn [replacement_of].
    pose proof (proj1 (build_normalized_docs_emitted _ _ _ df docs d H Hin))
      as K.
    now rewrite (Upsert.ensure_schema_complete d K).
Qed.

End SchemaProperties.

(** ** Validation reporter *)

Module Reporter.

Lemma add_key_mem (ks : list string) (k k' : string) :
  mem k' ks = true -> mem k' (add_key ks k) = true.
Proof.
  unfold add_key. destruct (mem k ks); [auto|].
  intros H. unfold mem in *. rewrite existsb_app, H. reflexivity.
Qed.

Lemma add_key_self (ks : list string) (k : string) :
  mem k (add_key ks k) = true.
Proof.
  unfold add_key. destruct (mem k ks) eqn:E; [exact E|].
  unfold mem. rewrite existsb_app. simpl.
  rewrite String.eqb_refl. apply orb_true_r.
Qed.

Lemma add_key_length (ks : list string) (k : string) :
  (List.length (add_key ks k) <= S (List.length ks))%nat.
Proof.
  unfold add_key. destruct (mem k ks); [lia|].
  rewrite length_app. simpl. lia.
Qed.

Lemma add_keys_mem (l ks : list string) (k : string) :
  mem k ks = true -> mem k (fold_left add_key l ks) = true.
Proof.
  revert ks; induction l as [|x l IH]; intros ks H; simpl; [exact H|].
  apply IH. now apply add_key_mem.
Qed.

Lemma add_keys_length (l ks : list string) :
  (List.length (fold_left add_key l ks) <= List.length ks + List.length l)%nat.
Proof.
  revert ks; induction l as [|x l IH]; intros ks; simpl; [lia|].
  specialize (IH (add_key ks x)). pose proof (add_key_length ks x). lia.
Qed.

(** A key that comes twice is counted once. *)
Lemma add_keys_repeated (a b c ks : list string) (k : string) :
  (List.length (fold_left add_key (a ++ k :: b ++ k :: c) ks)
   < List.length ks + List.length (a ++ k :: b ++ k :: c))%nat.
Proof.
  rewrite fold_left_app. cbn [fold_left]. rewrite fold_left_app.
  cbn [fold_left].
  set (ks1 := fold_left add_key a ks).
  set (ks2 := fold_left add_key b (add_key ks1 k)).
  assert (mem k ks2 = true) as M by apply add_keys_mem, add_key_self.
  assert (add_key ks2 k = ks2) as -> by (unfold add_key; now rewrite M).
  pose proof (add_keys_length c ks2).
  pose proof (add_keys_length b (add_key ks1 k)).
  pose proof (add_key_length ks1 k).
  pose proof (add_keys_length a ks).
  unfold ks2, ks1 in *. clear M.
  repeat (rewrite length_app; cbn [List.length]). lia.
Qed.

End Reporter.

(** A scan that notes an entry for the documents that lack something,
    under a key that depends on the document; [note_step] is all the
    lemmas use of the loop body. *)
Module Scan.

Section Generic.

Variable key : doc -> string.
Variable miss : doc -> list string.
Variable lacks : doc -> bool.
Variable note : Dict.t (list string) -> doc -> Dict.t (list string).

Hypothesis note_step :
  forall acc d,
    note acc d = if lacks d then Dict.set acc (key d) (miss d) else acc.

(** The scan assigns once per document that lacks something, in the
    order of the scan. *)
Lemma scan_update (docs : list doc) (acc : Dict.t (list string)) :
  fold_left note docs acc =
  Dict.update acc (map (fun d => (key d, miss d)) (filter lacks docs)).
Proof.
  unfold Dict.update. revert acc.
  induction docs as [|d docs IH]; intros acc; [reflexivity|].
  rewrite fold_left_cons, IH, note_step. cbn [filter].
  destruct (lacks d); [|reflexivity].
  cbn [map]. rewrite fold_left_cons. reflexivity.
Qed.

(** The entry under a key is that of the last document noted under it. *)
Lemma scan_get_last (k : string) (d : doc) (pre post : list doc) :
  lacks d = true -> key d = k ->
  Forall (fun d' => lacks d' = true -> key d' <> k) post ->
  Dict.get (fold_left note (pre ++ d :: post) []) k = Some (miss d).
Proof.
  intros Hd Hk Hpost.
  rewrite scan_update, DictFacts.get_update, filter_app. cbn [filter].
  rewrite Hd, map_app. cbn [map]. rewrite rev_app_distr. cbn [rev].
  rewrite <- app_assoc, find_app.
  destruct (find _ (rev (map _ (filter _ post)))) as [kv|] eqn:E.
  - exfalso. apply find_some in E as [Hin Hkv]. apply in_rev in Hin.
    apply in_map_iff in Hin as (d' & <- & Hin).
    apply filter_In in Hin as [Hin Hd'].
    rewrite Forall_forall in Hpost. apply (Hpost d' Hin Hd').
    apply String.eqb_eq in Hkv. now symmetry.
  - cbn [app find fst snd]. now rewrite Hk, String.eqb_refl.
Qed.

(** Two documents noted under one key leave one entry. *)
Lemma scan_length (k : string) (d1 d2 : doc) (pre mid post : list doc) :
  lacks d1 = true -> lacks d2 = true -> key d1 = k -> key d2 = k ->
  (List.length (fold_left note (pre ++ d1 :: mid ++ d2 :: post) [])
   < List.length (filter lacks (pre ++ d1 :: mid ++ d2 :: post)))%nat.
Proof.
  intros H1 H2 K1 K2.
  rewrite scan_update.
  rewrite <- (length_map fst (Dict.update _ _)).
  change (map fst (Dict.update ?d ?e)) with (Dict.keys (Dict.update d e)).
  rewrite DictFacts.keys_update. unfold Dict.keys.
  rewrite <- (length_map (fun d => (key d, miss d)) (filter _ _)).
  rewrite <- (length_map fst (map _ _)).
  rewrite filter_app. cbn [filter]. rewrite H1, filter_app. cbn [filter].
  rewrite H2, !map_app. cbn [map]. rewrite !map_app. cbn [map fst].
  rewrite K1, K2.
  apply (Reporter.add_keys_repeated _ _ _ [] k).
Qed.

End Generic.

End Scan.

Section ReporterProperties.

Variable repr_finite : bool -> positive -> Z -> string.
Variable py_sorted : list value -> result (list value).
Variable round_percent : Z -> Z -> pyfloat.

Lemma note_missing_step (acc : Dict.t (list string)) (d : doc) :
  note_missing repr_finite acc d =
  if has_missing_year d
  then Dict.set acc (report_key repr_finite d) (missing_of d)
  else acc.
Proof.
  unfold note_missing, has_missing_year. now destruct (missing_of d).
Qed.

Lemma report_key_null_country (d : doc) (m : string) :
  doc_get d "country" = VNone -> doc_get d "metric" = VStr m ->
  report_key repr_finite d = ("None||" ++ m)%string.
Proof. unfold report_key. now intros -> ->. Qed.

(** C8.  On a store without documents [validate_collection] returns the
    mapping with the single entry "error"; it does not raise. *)
Theorem validate_collection_empty :
  validate_collection repr_finite py_sorted round_percent [] =
  Ret [("error", RStr "no documents found in final collection")].
Proof. reflexivity. Qed.

(** On a store with documents, the report holds under "missing_years"
    what the scan of lines 278 to 283 leaves. *)
Lemma validate_collection_missing_years (coll : collection) (rep : report) :
  coll <> [] ->
  validate_collection repr_finite py_sorted round_percent coll = Ret rep ->
  Dict.get rep "missing_years"
  = Some (RYears (missing_years_of repr_finite coll)).
Proof.
  intros Hne. unfold validate_collection, find_all.
  destruct coll as [|d0 coll0]; [contradiction|].
  destruct (py_sorted _) as [countries|]; [|discriminate].
  cbn [bind]. intros [= <-]. reflexivity.
Qed.

(** C10.  Two documents with a null country and the same metric [m] have
    the same key "None||m" in [missing_years], whatever their source
    links.  When both lack a year, the entry under that key is the list
    of the one scanned last, and [missing_years] has fewer entries than
    there are documents lacking a year. *)
Theorem missing_years_collision
  (m : string) (d1 d2 : doc) (pre mid post : list doc) :
  doc_get d1 "country" = VNone -> doc_get d2 "country" = VNone ->
  doc_get d1 "metric" = VStr m -> doc_get d2 "metric" = VStr m ->
  has_missing_year d1 = true -> has_missing_year d2 = true ->
  let docs := pre ++ d1 :: mid ++ d2 :: post in
  let key := ("None||" ++ m)%string in
  report_key repr_finite d1 = key /\
  report_key repr_finite d2 = key /\
  (Forall (fun d => has_missing_year d = true ->
                    report_key repr_finite d <> key) post ->
   Dict.get (missing_years_of repr_finite docs) key = Some (missing_of d2)) /\
  (List.length (missing_years_of repr_finite docs)
   < List.length (filter has_missing_year docs))%nat /\
  (forall rep,
      validate_collection repr_finite py_sorted round_percent docs = Ret rep ->
      Dict.get rep "missing_years"
      = Some (RYears (missing_years_of repr_finite docs))).
Proof.
  intros C1 C2 M1 M2 H1 H2 docs key.
  pose proof (report_key_null_country d1 m C1 M1) as K1.
  pose proof (report_key_null_country d2 m C2 M2) as K2.
  split; [exact K1|]. split; [exact K2|]. split; [|split].
  - intros Hpost. unfold missing_years_of, docs.
    rewrite app_comm_cons, app_assoc.
    apply (Scan.scan_get_last (report_key repr_finite) missing_of
             has_missing_year (note_missing repr_finite) note_missing_step);
      assumption.
  - unfold missing_years_of, docs.
    apply (Scan.scan_length (report_key repr_finite) missing_of
             has_missing_year (note_missing repr_finite) note_missing_step
             key); assumption.
  - intros rep. apply validate_collection_missing_years.
    unfold docs. now destruct pre.
Qed.

End ReporterProperties.

(* ------------------------------------------------------------------ *)
(** ** The properties at sample inputs *)

(** [normalize_unit_spec] on a blank unit, a unit with a variant of
    "GWh", and a unit that the table does not know. *)
Lemma normalize_unit_spec_witness :
  normalize_unit Builtins.repr_finite (VStr "   ") = Ret None /\
  normalize_unit Builtins.repr_finite (VStr " Giga Watt Hour ")
  = Ret (Some "GWh") /\
  normalize_unit Builtins.repr_finite (VStr " toe ") = Ret (Some "toe").
Proof.
  destruct (normalize_unit_spec Builtins.repr_finite) as [_ H].
  split; [|split].
  - apply (H "   "). reflexivity.
  - apply (H " Giga Watt Hour "); [discriminate|].
    apply Units.first_canonical_some. reflexivity.
  - apply (H " toe "); [discriminate|].
    apply Units.first_canonical_none_inv. reflexivity.
Defined.

(** Against C4 as worded: positive infinity is numeric and
    not finite, and it is returned as it is, not as [None]. *)
Lemma to_number_safe_infinity_counterexample :
  to_number_safe Builtins.float_of_str Builtins.repr_finite
                 (VFloat (S754_infinity false))
  = Ret (Some (S754_infinity false)) /\
  to_number_safe Builtins.float_of_str Builtins.repr_finite
                 (VFloat (S754_infinity false))
  <> Ret None.
Proof. split; [reflexivity|discriminate]. Qed.

(** [to_number_safe_numeric] on negative infinity and on the integer 3. *)
Lemma to_number_safe_numeric_witness :
  to_number_safe Builtins.float_of_str Builtins.repr_finite
                 (VFloat (S754_infinity true))
  = Ret (Some (S754_infinity true)) /\
  to_number_safe Builtins.float_of_str Builtins.repr_finite (VInt 3)
  = Ret (Some (S754_finite false 6755399441055744 (-51))).
Proof.
  destruct (to_number_safe_numeric Builtins.float_of_str Builtins.repr_finite)
    as (Hf & _ & Hz).
  split; [apply Hf|apply Hz]; reflexivity.
Defined.

(** [required_schema_keys] on the table of section 8 of the
    specification. *)
Lemma required_schema_keys_witness :
  build_normalized_docs Builtins.float_of_str Builtins.hash
                        Builtins.repr_finite Samples.kenya_frame
  = Ret [Samples.kenya_doc] /\
  Dict.keys Samples.kenya_doc = REQUIRED_SCHEMA /\
  exists ops,
    write_ops [Samples.kenya_doc] = Ret ops /\
    Forall (fun op => Dict.keys (replacement_of op) = REQUIRED_SCHEMA) ops.
Proof.
  assert (build_normalized_docs Builtins.float_of_str Builtins.hash
            Builtins.repr_finite Samples.kenya_frame
          = Ret [Samples.kenya_doc]) as E by (vm_compute; reflexivity).
  destruct (required_schema_keys Builtins.float_of_str Builtins.hash
              Builtins.repr_finite) as (Hdocs & Hops & _ & _ & Hsub).
  split; [exact E|]. split; [apply (Hdocs _ _ _ E); now left|].
  destruct (Hops [Samples.kenya_doc]) as (ops & W & _).
  exists ops. split; [exact W|].
  apply Forall_forall. intros op Hin. exact (Hsub _ _ _ _ E W Hin).
Defined.

(** [upsert_keyed_by_natural_key] on a document with a country, one
    without, and one whose country is the empty string. *)
Lemma upsert_keyed_by_natural_key_witness :
  natural_key Samples.kenya_doc
  = [("country", VStr "Kenya"); ("metric", VStr "Electricity Access")] /\
  natural_key Samples.orphan_a
  = [("metric", VStr "Access"); ("source_link", VStr "a")] /\
  natural_key Samples.blank_country
  = [("metric", VStr "Access"); ("source_link", VStr "a")] /\
  (exists modified,
      upsert_normalized_docs [Samples.orphan_a; Samples.kenya_old]
                             [Samples.kenya_doc]
      = Ret ([Samples.orphan_a; ensure_schema Samples.kenya_doc],
             (0, modified)%Z)) /\
  upsert_normalized_docs [Samples.orphan_a] [Samples.kenya_doc]
  = Ret ([Samples.orphan_a; ensure_schema Samples.kenya_doc], (1, 0)%Z) /\
  doc_get (ensure_schema Samples.kenya_doc) "note" = VNone.
Proof.
  destruct upsert_keyed_by_natural_key
    as (_ & Hset & Hunset & Hreplace & Hinsert & Hfields).
  split; [|split; [|split; [|split; [|split]]]].
  - apply (Hset Samples.kenya_doc "Kenya"); [reflexivity|discriminate].
  - apply (Hunset Samples.orphan_a). left. reflexivity.
  - apply (Hunset Samples.blank_country). right. reflexivity.
  - apply (Hreplace Samples.kenya_doc Samples.kenya_old [Samples.orphan_a] []).
    + reflexivity.
    + repeat constructor.
  - apply (Hinsert Samples.kenya_doc [Samples.orphan_a]).
    repeat constructor.
  - rewrite (Hfields Samples.kenya_doc "note"). reflexivity.
Defined.



(** [missing_years_collision] on two documents without a country, stored
    under two natural keys: one entry in [missing_years] for the two. *)
Lemma missing_years_collision_witness :
  natural_key Samples.orphan_a <> natural_key Samples.orphan_b /\
  Dict.get (missing_years_of Builtins.repr_finite
              [Samples.orphan_a; Samples.orphan_b]) "None||Access"
  = Some (missing_of Samples.orphan_b) /\
  (List.length (missing_years_of Builtins.repr_finite
                  [Samples.orphan_a; Samples.orphan_b])
   < List.length (filter has_missing_year
                    [Samples.orphan_a; Samples.orphan_b]))%nat.
Proof.
  destruct (missing_years_collision Builtins.repr_finite Builtins.sorted
              Builtins.round_percent "Access"
              Samples.orphan_a Samples.orphan_b [] [] [])
    as (_ & _ & Hget & Hlen & _); try reflexivity.
  split; [intros E; vm_compute in E; discriminate E|].
  split; [apply Hget; constructor|exact Hlen].
Defined.

(* ------------------------------------------------------------------ *)
(** ** The pipeline on examples *)

Module Examples.

Local Abbreviation coerce :=
  (to_number_safe Builtins.float_of_str Builtins.repr_finite).

(** 12345.0 *)
Example coerce_thousands :
  coerce (VStr "12,345 (est)")
  = Ret (Some (S754_finite false 6786735522447360 (-39))).
Proof. vm_compute. reflexivity. Qed.

(** The comma is removed before the split: 350.0. *)
Example coerce_decimal_comma :
  coerce (VStr "35,0 (p)")
  = Ret (Some (S754_finite false 6157265115545600 (-44))).
Proof. vm_compute. reflexivity. Qed.

(** The regular expression finds "-12.5" in the token. *)
Example coerce_embedded :
  coerce (VStr "~-12.5*")
  = Ret (Some (S754_finite true 7036874417766400 (-49))).
Proof. vm_compute. reflexivity. Qed.

Example coerce_missing :
  coerce (VStr "N/A") = Ret None /\ coerce (VStr "  ") = Ret None /\
  coerce VNone = Ret None /\ coerce (VStr "abc") = Ret None.
Proof. repeat split. Qed.

Example coerce_huge_int : coerce (VInt (2 ^ 1024)) = Raise OverflowError.
Proof. vm_compute. reflexivity. Qed.

Example units :
  map (normalize_unit Builtins.repr_finite)
      [VStr " GWh "; VStr "Percentage of population"; VStr "ktoe";
       VStr "MWh"; VStr EmptyString; VNone; VInt 5]
  = [Ret (Some "GWh"); Ret (Some "%"); Ret (Some "kt"); Ret (Some "MW");
     Ret None; Ret None; Raise AttributeError].
Proof. vm_compute. reflexivity. Qed.

Example repr_examples :
  map (fun s => match Builtins.float_of_str s with
                | Some (S754_finite sg m e) => Builtins.repr_finite sg m e
                | _ => EmptyString
                end)
      ["32.1"; "1e16"; "0.00001"; "12345"]
  = ["32.1"; "1e+16"; "1e-05"; "12345.0"].
Proof. vm_compute. reflexivity. Qed.

Example kenya_frame_well_formed : well_formed Samples.kenya_frame = true.
Proof. reflexivity. Qed.

(** Both patterns of a label count once: the second label is the metric
    column when the first matches no pattern. *)
Example metric_column_indicator :
  metric_column ["Country"; "Indicator Name"; "Unit"; "2000"]
  = Some "Indicator Name".
Proof. reflexivity. Qed.

(** Without a label that matches, the first column that is neither a
    year nor metadata gives the metric. *)
Example metric_fallback :
  derive_metric ["2000"; "Unit"; "Description"] [Some "1"; Some "MW"; Some "Hydro"]
  = Ret (Some "Hydro").
Proof. reflexivity. Qed.

Example upsert_new_then_same :
  upsert_normalized_docs [] [Samples.kenya_doc]
  = Ret ([Samples.kenya_doc], (1, 0)%Z) /\
  upsert_normalized_docs [Samples.kenya_doc] [Samples.kenya_doc]
  = Ret ([Samples.kenya_doc], (0, 0)%Z) /\
  upsert_normalized_docs [Samples.kenya_old] [Samples.kenya_doc]
  = Ret ([Samples.kenya_doc], (0, 1)%Z).
Proof. repeat split; vm_compute; reflexivity. Qed.

Example report_of_orphans :
  match validate_collection Builtins.repr_finite Builtins.sorted
          Builtins.round_percent [Samples.orphan_a; Samples.orphan_b] with
  | Ret rep =>
      Dict.get rep "total_documents" = Some (RInt 2) /\
      Dict.get rep "countries" = Some (RList []) /\
      Dict.keys rep =
      ["total_documents"; "missing_years"; "inconsistent_units";
       "countries_count"; "countries"; "completeness_by_year"]
  | Raise _ => False
  end.
Proof. vm_compute. repeat split. Qed.

End Examples.

(* ------------------------------------------------------------------ *)
(** * Further properties of the code *)

(** ** More on text *)

Module StripFacts.

Import TextFacts.

Lemma all_space_rstrip (s : string) : all_space (rstrip s) = all_space s.
Proof.
  induction s as [|c s IH]; [reflexivity|].
  rewrite rstrip_cons. destruct (all_space s) eqn:A.
  - destruct (is_space c) eqn:C; simpl; rewrite ?C, ?A; reflexivity.
  - simpl. now rewrite IH, A.
Qed.

Lemma rstrip_idem (s : string) : rstrip (rstrip s) = rstrip s.
Proof.
  induction s as [|c s IH]; [reflexivity|].
  rewrite rstrip_cons. destruct (all_space s) eqn:A.
  - destruct (is_space c) eqn:C; [reflexivity|].
    rewrite rstrip_cons. simpl. now rewrite C.
  - now rewrite rstrip_cons, all_space_rstrip, A, IH.
Qed.

Lemma lstrip_solid (s : string) : starts_solid s = true -> lstrip s = s.
Proof.
  destruct s as [|c s]; [reflexivity|]. simpl.
  now destruct (is_space c).
Qed.

Lemma lstrip_cases (s : string) :
  lstrip s = EmptyString \/ starts_solid (lstrip s) = true.
Proof.
  induction s as [|c s IH]; simpl; [now left|].
  destruct (is_space c) eqn:C; [exact IH|].
  right. simpl. now rewrite C.
Qed.

Lemma rstrip_solid (s : string) :
  starts_solid s = true -> starts_solid (rstrip s) = true.
Proof.
  destruct s as [|c s]; [discriminate|].
  rewrite rstrip_cons. simpl. intros C. apply negb_true_iff in C.
  rewrite C. now destruct (all_space s); simpl; rewrite C.
Qed.

(** [s.strip().strip()] is [s.strip()]. *)
Lemma strip_idem (s : string) : strip (strip s) = strip s.
Proof.
  unfold strip. destruct (lstrip_cases s) as [E|E].
  - now rewrite E.
  - now rewrite (lstrip_solid _ (rstrip_solid _ E)), rstrip_idem.
Qed.

Lemma has_payload_all_space (s : string) :
  all_space s = true -> has_payload s = false.
Proof.
  induction s as [|c s IH]; [reflexivity|]. simpl.
  intros H. apply andb_true_iff in H as [-> H]. now rewrite IH.
Qed.

Lemma has_payload_lstrip (s : string) : has_payload (lstrip s) = has_payload s.
Proof.
  induction s as [|c s IH]; [reflexivity|]. simpl lstrip.
  destruct (is_space c) eqn:C; [|reflexivity].
  rewrite IH. simpl. now rewrite C.
Qed.

Lemma has_payload_rstrip (s : string) : has_payload (rstrip s) = has_payload s.
Proof.
  induction s as [|c s IH]; [reflexivity|].
  rewrite rstrip_cons. destruct (all_space s) eqn:A.
  - simpl. rewrite (has_payload_all_space _ A), orb_false_r.
    destruct (is_space c) eqn:C; simpl; [reflexivity|].
    now rewrite C, orb_false_r.
  - simpl. now rewrite IH.
Qed.

Lemma has_payload_strip (s : string) : has_payload (strip s) = has_payload s.
Proof. unfold strip. now rewrite has_payload_rstrip, has_payload_lstrip. Qed.

Lemma comma_lower (c : ascii) :
  Ascii.eqb (lower_char c) "," = Ascii.eqb c ",".
Proof. destruct c as [[] [] [] [] [] [] [] []]; reflexivity. Qed.

Lemma has_payload_lower (s : string) : has_payload (lower s) = has_payload s.
Proof.
  induction s as [|c s IH]; [reflexivity|]. simpl.
  now rewrite is_space_lower, comma_lower, IH.
Qed.

(** Once the commas are removed, white space is all that is left exactly
    when the text had nothing else. *)
Lemma all_space_remove_commas (s : string) :
  all_space (remove_commas s) = negb (has_payload s).
Proof.
  induction s as [|c s IH]; [reflexivity|]. simpl.
  destruct (Ascii.eqb c ",") eqn:E.
  - rewrite IH, andb_false_r. reflexivity.
  - simpl. rewrite IH, andb_true_r. now destruct (is_space c).
Qed.

End StripFacts.

(** ** More on the helpers *)

Section MoreHelperProperties.

Variable float_of_str : string -> option pyfloat.
Variable py_hash : string -> Z.
Variable repr_finite : bool -> positive -> Z -> string.

Lemma missing_marker_payload (s : string) :
  mem (lower (strip s)) ["nan"; "n/a"; "na"] = true -> has_payload s = true.
Proof.
  intros M.
  rewrite <- StripFacts.has_payload_strip, <- StripFacts.has_payload_lower.
  unfold mem in M. cbn [existsb] in M.
  repeat (apply orb_true_iff in M as [M|M];
          [apply String.eqb_eq in M; now rewrite M|]).
  discriminate.
Qed.

Lemma to_number_safe_raises_payload (s : string) (e : exn) :
  to_number_safe float_of_str repr_finite (VStr s) = Raise e <->
  e = IndexError /\ strip s <> EmptyString /\ has_payload s = false.
Proof.
  rewrite to_number_safe_raises_iff, StripFacts.all_space_remove_commas,
    StripFacts.has_payload_strip, negb_true_iff.
  split.
  - intros (He & Hs & _ & Hp). auto.
  - intros (He & Hs & Hp). repeat split; auto.
    destruct (mem (lower (strip s)) _) eqn:M; [|reflexivity].
    apply missing_marker_payload in M. congruence.
Qed.

(** X1.  On a string, [to_number_safe] raises exactly when the text, once
    trimmed, is not empty and holds nothing but commas and white space;
    what it raises is [IndexError].  On every other string it returns. *)
Theorem to_number_safe_raises_exactly (s : string) (e : exn) :
  to_number_safe float_of_str repr_finite (VStr s) = Raise e <->
  e = IndexError /\ strip s <> EmptyString /\ has_payload s = false.
Proof. exact (to_number_safe_raises_payload s e). Qed.

Lemma first_canonical_key (table : Dict.t (list string)) (s canon : string) :
  first_canonical table s = Some canon -> In canon (Dict.keys table).
Proof.
  intros H. apply Units.first_canonical_some in H
    as (pre & variants & post & -> & _).
  unfold Dict.keys. rewrite map_app. apply in_or_app. right. now left.
Qed.

(** X2.  [normalize_unit] is idempotent on strings: the unit it returns
    for a string is returned unchanged when it is normalized again. *)
Theorem normalize_unit_idempotent (u canon : string) :
  normalize_unit repr_finite (VStr u) = Ret (Some canon) ->
  normalize_unit repr_finite (VStr canon) = Ret (Some canon).
Proof.
  rewrite !normalize_unit_str.
  destruct (String.eqb (strip u) EmptyString) eqn:E; [discriminate|].
  destruct (first_canonical UNIT_MAP (lower u)) as [c|] eqn:F.
  - intros [= ->]. apply first_canonical_key in F.
    rewrite Units.UNIT_MAP_entries in F. cbn [Dict.keys map fst] in F.
    repeat (destruct F as [<-|F]; [reflexivity|]). contradiction.
  - intros [= <-]. rewrite StripFacts.strip_idem, E.
    rewrite TextFacts.lower_strip, Units.first_canonical_strip, F.
    reflexivity.
Qed.

(** X3.  The test for the bare percent spellings after the table loop
    (lines 94 to 96) never decides: when no variant of the table occurs
    in the text, the text is none of "%", "percent", "percentage". *)
Theorem percent_fallback_unreachable (u : string) :
  first_canonical UNIT_MAP (lower (strip u)) = None ->
  mem (lower (strip u)) ["%"; "percent"; "percentage"] = false.
Proof. apply Units.no_canonical_no_percent. Qed.

(** X4.  [infer_country_serial] gives no serial for [None] and for the
    empty name, and a serial from 0 to 99999 for every other name. *)
Theorem infer_country_serial_range (country_name : cell) :
  match infer_country_serial py_hash country_name with
  | Some n =>
      (0 <= n < 100000)%Z /\
      exists s, country_name = Some s /\ s <> EmptyString
  | None => country_name = None \/ country_name = Some EmptyString
  end.
Proof.
  unfold infer_country_serial. destruct country_name as [s|]; [|now left].
  destruct (String.eqb s EmptyString) eqn:E.
  - apply String.eqb_eq in E. subst. now right.
  - split.
    + apply Z.mod_pos_bound. lia.
    + exists s. split; [reflexivity|]. now apply String.eqb_neq.
Qed.

End MoreHelperProperties.

(** ** More on dictionaries *)

Module DictMore.

Section WithValue.
Context {V : Type}.
Implicit Types (d e : Dict.t V) (k : string) (v : V).

Lemma get_find d k :
  Dict.get d k = option_map snd (find (fun kv => String.eqb k (fst kv)) d).
Proof.
  induction d as [|[k' v'] d IH]; simpl; [reflexivity|].
  now destruct (String.eqb k k').
Qed.

Lemma get_in_keys d k v : Dict.get d k = Some v -> In k (Dict.keys d).
Proof.
  induction d as [|[k' v'] d IH]; simpl; [discriminate|].
  destruct (String.eqb k k') eqn:E.
  - apply String.eqb_eq in E. subst. now left.
  - intros H. right. now apply IH.
Qed.

Lemma in_keys_get d k : In k (Dict.keys d) -> exists v, Dict.get d k = Some v.
Proof.
  induction d as [|[k' v'] d IH]; simpl; [contradiction|].
  destruct (String.eqb k k') eqn:E; [now eexists|].
  intros [->|H]; [now rewrite String.eqb_refl in E|now apply IH].
Qed.

Lemma get_not_in_keys d k : ~ In k (Dict.keys d) -> Dict.get d k = None.
Proof.
  intros H. destruct (Dict.get d k) eqn:E; [|reflexivity].
  now apply get_in_keys in E.
Qed.

(** With distinct keys the last entry under a key is the only one. *)
Lemma find_rev_nodup e k :
  NoDup (Dict.keys e) ->
  find (fun kv => String.eqb k (fst kv)) (rev e) =
  find (fun kv => String.eqb k (fst kv)) e.
Proof.
  induction e as [|[k' v'] e IH]; intros N; [reflexivity|].
  simpl in N. inversion N as [|? ? Hk N']; subst.
  simpl rev. rewrite find_app, (IH N'). simpl find.
  destruct (String.eqb k k') eqn:E.
  - apply String.eqb_eq in E. subst k'.
    destruct (find _ e) as [[k0 v0]|] eqn:F; [|reflexivity].
    exfalso. apply find_some in F as [Hin E0]. simpl in E0.
    apply String.eqb_eq in E0. subst k0. apply Hk.
    unfold Dict.keys. apply in_map_iff. now exists (k, v0).
  - now destruct (find _ e).
Qed.

(** [d.update(e)]: the value of [e] where [e] has the key, that of [d]
    elsewhere. *)
Lemma get_update_nodup d e k :
  NoDup (Dict.keys e) ->
  Dict.get (Dict.update d e) k =
  match Dict.get e k with
  | Some v => Some v
  | None => Dict.get d k
  end.
Proof.
  intros N. rewrite DictFacts.get_update, (find_rev_nodup e k N), (get_find e).
  now destruct (find _ e).
Qed.

End WithValue.

Lemma distinct_labels_NoDup (l : list string) :
  distinct_labels l = true -> NoDup l.
Proof.
  induction l as [|c l IH]; simpl; [constructor|].
  intros H. apply andb_true_iff in H as [Hc Hl].
  constructor; [|now apply IH].
  intros Hin. apply Upsert.mem_spec in Hin. now rewrite Hin in Hc.
Qed.

Lemma YEARS_NoDup : NoDup YEARS.
Proof. apply distinct_labels_NoDup. reflexivity. Qed.

End DictMore.

(** ** More on the schema normalizer *)

Section MoreNormalizerProperties.

Variable float_of_str : string -> option pyfloat.
Variable py_hash : string -> Z.
Variable repr_finite : bool -> positive -> Z -> string.

Lemma candidate_cell_returns (cols : list string) (cells : list cell)
  (cand : string) :
  In cand (Dict.keys (lc_map_of cols)) ->
  exists r, candidate_cell cols cells cand = Ret r.
Proof.
  intros H. unfold candidate_cell, item.
  destruct (DictMore.in_keys_get _ _ H) as [c ->]. cbn [bind].
  unfold row_item. destruct (mem c cols); eexists; reflexivity.
Qed.

Lemma first_candidate_in {A : Type} (P : A -> bool) (l : list A) (x : A)
  (r : list A) :
  filter P l = x :: r -> In x l.
Proof.
  intros E. assert (In x (filter P l)) as H by (rewrite E; now left).
  now apply filter_In in H.
Qed.

Lemma derive_country_clean (cols : list string) (cells : list cell) :
  exists raw, derive_country cols cells = Ret (clean raw).
Proof.
  unfold derive_country.
  destruct (country_candidates_of cols) as [|cand r] eqn:E.
  - eexists. reflexivity.
  - apply first_candidate_in in E.
    destruct (candidate_cell_returns cols cells cand E) as [raw ->].
    now exists raw.
Qed.

Lemma metric_column_in (cols : list string) (c : string) :
  metric_column cols = Some c -> mem c cols = true.
Proof.
  rewrite Detection.metric_column_eq.
  destruct (find is_metric_name (map lower cols)); [|discriminate].
  unfold last_labelled. intros H. apply find_some in H as [H _].
  apply in_rev in H. now apply Upsert.mem_spec.
Qed.

Lemma derive_metric_clean (cols : list string) (cells : list cell) :
  exists raw, derive_metric cols cells = Ret (clean raw).
Proof.
  unfold derive_metric, row_item.
  destruct (metric_column cols) as [c|] eqn:E.
  - rewrite (metric_column_in _ _ E). cbn [bind]. eexists. reflexivity.
  - cbn [bind]. eexists. reflexivity.
Qed.

Lemma derive_unit_normalized (cols : list string) (cells : list cell) :
  exists raw,
    derive_unit repr_finite cols cells
    = normalize_unit repr_finite (value_of_cell raw).
Proof.
  unfold derive_unit.
  destruct (unit_candidates_of cols) as [|cand r] eqn:E.
  - eexists. reflexivity.
  - apply first_candidate_in in E.
    destruct (candidate_cell_returns cols cells cand E) as [raw ->].
    now exists raw.
Qed.

(** A cleaned cell is trimmed text. *)
Lemma clean_trimmed (raw : cell) (s : string) :
  clean raw = Some s -> strip s = s.
Proof.
  destruct raw as [x|]; [|discriminate]. simpl.
  destruct (_ && _); [|discriminate].
  intros [= <-]. apply StripFacts.strip_idem.
Qed.

(** On a cell, [normalize_unit] returns [None] or a trimmed text that is
    not empty. *)
Lemma normalize_unit_cell (raw : cell) :
  exists r,
    normalize_unit repr_finite (value_of_cell raw) = Ret r /\
    (r = None \/ exists s, r = Some s /\ s <> EmptyString /\ strip s = s).
Proof.
  destruct raw as [u|]; [|exists None; split; [reflexivity|now left]].
  simpl value_of_cell. rewrite normalize_unit_str.
  destruct (String.eqb (strip u) EmptyString) eqn:E.
  - exists None. split; [reflexivity|now left].
  - destruct (first_canonical UNIT_MAP (lower u)) as [c|] eqn:F.
    + exists (Some c). split; [reflexivity|]. right. exists c.
      split; [reflexivity|].
      apply first_canonical_key in F.
      rewrite Units.UNIT_MAP_entries in F. cbn [Dict.keys map fst] in F.
      repeat (destruct F as [<-|F]; [split; [discriminate|reflexivity]|]).
      contradiction.
    + exists (Some (strip u)). split; [reflexivity|]. right.
      exists (strip u). split; [reflexivity|]. split.
      * now apply String.eqb_neq.
      * apply StripFacts.strip_idem.
Qed.

(** On a cell, [to_number_safe] returns or raises [IndexError]. *)
Lemma to_number_safe_cell (c : cell) :
  (exists r, to_number_safe float_of_str repr_finite (value_of_cell c) = Ret r)
  \/ to_number_safe float_of_str repr_finite (value_of_cell c)
     = Raise IndexError.
Proof.
  destruct c as [s|]; [|left; now exists None]. simpl value_of_cell.
  destruct (to_number_safe float_of_str repr_finite (VStr s)) as [r|e] eqn:E.
  - left. now exists r.
  - right. apply to_number_safe_raises_iff in E as [-> _]. reflexivity.
Qed.

Lemma nested_year_cases (cols_left cols : list string) (cells : list cell)
  (y : string) :
  (exists r, nested_year float_of_str repr_finite cols_left cols cells y = Ret r)
  \/ nested_year float_of_str repr_finite cols_left cols cells y
     = Raise IndexError.
Proof.
  induction cols_left as [|c r IH]; simpl.
  - left. now exists None.
  - destruct (contains y c); [apply to_number_safe_cell|exact IH].
Qed.

(** The value of one year (lines 209 to 225). *)
Lemma year_value_cases (cols : list string) (cells : list cell) (y : string) :
  let v :=
    if has_year_cols_of cols then
      if mem y cols
      then to_number_safe float_of_str repr_finite
             (value_of_cell (row_get cols cells y))
      else nested_year float_of_str repr_finite cols cols cells y
    else Ret None in
  (exists r, v = Ret r) \/ v = Raise IndexError.
Proof.
  cbv zeta. destruct (has_year_cols_of cols); [|left; now exists None].
  destruct (mem y cols); [apply to_number_safe_cell|apply nested_year_cases].
Qed.

Lemma year_values_from_cases (cols : list string) (cells : list cell)
  (years : list string) (acc : doc) :
  (exists yv,
      year_values_from float_of_str repr_finite years cols cells acc = Ret yv)
  \/ year_values_from float_of_str repr_finite years cols cells acc
     = Raise IndexError.
Proof.
  revert acc; induction years as [|y r IH]; intros acc; simpl.
  - left. now exists acc.
  - destruct (year_value_cases cols cells y) as [[v ->]| ->].
    + cbn [bind]. apply IH.
    + right. reflexivity.
Qed.

(** Every value of [year_values] is a float or [None]. *)
Lemma year_values_typed (cols : list string) (cells : list cell)
  (years : list string) (acc yv : doc) :
  year_values_from float_of_str repr_finite years cols cells acc = Ret yv ->
  (forall k v, Dict.get acc k = Some v -> v = VNone \/ exists f, v = VFloat f) ->
  forall k v, Dict.get yv k = Some v -> v = VNone \/ exists f, v = VFloat f.
Proof.
  revert acc; induction years as [|y r IH]; intros acc H Hacc; simpl in H.
  - now injection H as <-.
  - destruct (if has_year_cols_of cols then _ else _) as [x|]; [|discriminate].
    cbn [bind] in H. apply (IH _ H). intros k v.
    rewrite DictFacts.get_set. destruct (String.eqb k y).
    + intros [= <-]. destruct x as [f|]; [right; now exists f|now left].
    + apply Hacc.
Qed.

(** Without a year column every value of [year_values] is [None], and
    nothing is raised. *)
Lemma year_values_not_wide (cols : list string) (cells : list cell)
  (years : list string) (acc : doc) :
  has_year_cols_of cols = false ->
  exists yv,
    year_values_from float_of_str repr_finite years cols cells acc = Ret yv /\
    forall k v, Dict.get yv k = Some v -> Dict.get acc k = Some v \/ v = VNone.
Proof.
  intros W. revert acc; induction years as [|y r IH]; intros acc; simpl.
  - exists acc. auto.
  - rewrite W. cbn [bind].
    destruct (IH (Dict.set acc y (value_of_float None))) as (yv & -> & H).
    exists yv. split; [reflexivity|]. intros k v Hk.
    destruct (H k v Hk) as [Hs|Hs]; [|now right].
    rewrite DictFacts.get_set in Hs. destruct (String.eqb k y).
    + injection Hs as <-. now right.
    + now left.
Qed.

End MoreNormalizerProperties.

Section NormalizerInvariants.

Variable float_of_str : string -> option pyfloat.
Variable py_hash : string -> Z.
Variable repr_finite : bool -> positive -> Z -> string.

Lemma not_a_year (k : string) : mem k YEARS = false -> ~ In k YEARS.
Proof. intros M H. apply Upsert.mem_spec in H. congruence. Qed.

(** A field that is no year keeps the value of [base] through
    [doc.update(year_values)]. *)
Lemma get_metadata (base yv : doc) (k : string) :
  Dict.keys yv = YEARS -> mem k YEARS = false ->
  Dict.get (Dict.update base yv) k = Dict.get base k.
Proof.
  intros K M. rewrite DictMore.get_update_nodup
    by (rewrite K; apply DictMore.YEARS_NoDup).
  rewrite (DictMore.get_not_in_keys yv k); [reflexivity|].
  rewrite K. now apply not_a_year.
Qed.

(** The fields of the document of a row. *)
Lemma normalize_row_inv (cols : list string) (cells : list cell) (d : doc) :
  normalize_row float_of_str py_hash repr_finite cols cells = Ret d ->
  exists country metric unit yv,
    derive_country cols cells = Ret country /\
    derive_metric cols cells = Ret metric /\
    derive_unit repr_finite cols cells = Ret unit /\
    year_values_from float_of_str repr_finite YEARS cols cells [] = Ret yv /\
    Dict.get d "country" = Some (value_of_cell country) /\
    Dict.get d "country_serial"
    = Some match infer_country_serial py_hash country with
           | Some n => VInt n
           | None => VNone
           end /\
    Dict.get d "metric" = Some (value_of_cell metric) /\
    Dict.get d "unit" = Some (value_of_cell unit) /\
    Dict.get d "source"
    = Some (if mem "source" cols
            then value_of_cell (row_get cols cells "source")
            else VStr "Africa Energy Portal") /\
    forall y, In y YEARS ->
              exists v, Dict.get yv y = Some v /\ Dict.get d y = Some v.
Proof.
  unfold normalize_row. intros H.
  destruct (derive_country cols cells) as [country|]; [|discriminate].
  destruct (derive_metric cols cells) as [metric|]; [|discriminate].
  destruct (derive_unit repr_finite cols cells) as [unit|]; [|discriminate].
  cbn [bind] in H.
  destruct (year_values_from _ _ _ _ _ _) as [yv|] eqn:Y; [|discriminate].
  cbn [bind] in H. injection H as <-.
  pose proof (year_values_keys _ _ _ _ _ _ _ Y) as K.
  change (fold_left add_key YEARS (Dict.keys [])) with YEARS in K.
  exists country, metric, unit, yv.
  repeat (split; [reflexivity|]).
  repeat (split; [now rewrite (get_metadata _ yv _ K) by reflexivity|]).
  intros y Hy.
  assert (In y (Dict.keys yv)) as Hin by now rewrite K.
  destruct (DictMore.in_keys_get _ _ Hin) as [v Hv].
  exists v. split; [exact Hv|].
  rewrite DictMore.get_update_nodup
    by (rewrite K; apply DictMore.YEARS_NoDup).
  now rewrite Hv.
Qed.

(** For the document of a row, the test of line 232 is the test that the
    metric is not empty once trimmed; it raises nothing. *)
Lemma has_metric_row (cols : list string) (cells : list cell) (d : doc) :
  normalize_row float_of_str py_hash repr_finite cols cells = Ret d ->
  has_metric d = Ret (has_metric_text d).
Proof.
  intros H. apply normalize_row_inv in H
    as (country & metric & unit & yv & _ & _ & _ & _ & _ & _ & M & _).
  unfold has_metric, has_metric_text, item, doc_get. rewrite M. cbn [bind].
  destruct metric as [s|]; [|reflexivity]. simpl.
  destruct (String.eqb s EmptyString) eqn:E; [|reflexivity].
  apply String.eqb_eq in E. now subst.
Qed.

End NormalizerInvariants.

(** ** The batch of documents *)

Section BatchProperties.

Variable float_of_str : string -> option pyfloat.
Variable py_hash : string -> Z.
Variable repr_finite : bool -> positive -> Z -> string.

Lemma to_number_cell_raises (c : cell) (e : exn) :
  to_number_safe float_of_str repr_finite (value_of_cell c) = Raise e ->
  e = IndexError /\
  exists s, c = Some s /\ strip s <> EmptyString /\ has_payload s = false.
Proof.
  destruct c as [s|]; [|discriminate]. simpl value_of_cell. intros H.
  apply to_number_safe_raises_payload in H as (-> & Hs & Hp).
  split; [reflexivity|]. now exists s.
Qed.

Lemma nested_year_raises (cols_left cols : list string) (cells : list cell)
  (y : string) (e : exn) :
  nested_year float_of_str repr_finite cols_left cols cells y = Raise e ->
  e = IndexError /\
  exists c s,
    In c cols_left /\ contains y c = true /\ row_get cols cells c = Some s /\
    strip s <> EmptyString /\ has_payload s = false.
Proof.
  induction cols_left as [|c r IH]; simpl; [discriminate|].
  destruct (contains y c) eqn:C.
  - intros H. apply to_number_cell_raises in H as (-> & s & Hs & Hn & Hp).
    split; [reflexivity|]. exists c, s. auto.
  - intros H. apply IH in H as (-> & c' & s & Hin & H).
    split; [reflexivity|]. exists c', s. auto.
Qed.

Lemma year_values_from_raises (cols : list string) (cells : list cell)
  (years : list string) (acc : doc) (e : exn) :
  year_values_from float_of_str repr_finite years cols cells acc = Raise e ->
  e = IndexError /\ has_year_cols_of cols = true /\
  exists y c s,
    In y years /\ In c cols /\ contains y c = true /\
    row_get cols cells c = Some s /\
    strip s <> EmptyString /\ has_payload s = false.
Proof.
  revert acc; induction years as [|y r IH]; intros acc; simpl; [discriminate|].
  destruct (has_year_cols_of cols) eqn:W.
  - destruct (mem y cols) eqn:M.
    + destruct (to_number_safe _ _ _) as [v|e'] eqn:T; cbn [bind].
      * intros H. apply IH in H as (-> & _ & y' & c & s & Hy & H).
        repeat split; try reflexivity. exists y', c, s. auto.
      * intros [= <-].
        apply to_number_cell_raises in T as (-> & s & Hs & Hn & Hp).
        repeat split; try reflexivity. exists y, y, s.
        repeat split; auto.
        -- now apply Upsert.mem_spec.
        -- apply TextFacts.contains_refl.
    + destruct (nested_year _ _ _ _ _ _) as [v|e'] eqn:T; cbn [bind].
      * intros H. apply IH in H as (-> & _ & y' & c & s & Hy & H).
        repeat split; try reflexivity. exists y', c, s. auto.
      * intros [= <-].
        apply nested_year_raises in T as (-> & c & s & Hc & H).
        repeat split; try reflexivity. exists y, c, s. auto.
  - cbn [bind]. intros H. apply IH in H as (_ & H & _). discriminate.
Qed.

(** The document of a row is built unless a year cell blocks it. *)
Lemma normalize_row_raises (cols : list string) (cells : list cell) (e : exn) :
  normalize_row float_of_str py_hash repr_finite cols cells = Raise e ->
  e = IndexError /\ has_year_cols_of cols = true /\ blocking_cell cols cells.
Proof.
  unfold normalize_row.
  destruct (derive_country_clean cols cells) as [rc ->].
  destruct (derive_metric_clean cols cells) as [rm ->].
  destruct (derive_unit_normalized repr_finite cols cells) as [ru ->].
  destruct (normalize_unit_cell repr_finite ru) as (u & -> & _).
  cbn [bind].
  destruct (year_values_from _ _ _ _ _ _) as [yv|e'] eqn:Y; [discriminate|].
  cbn [bind]. intros [= <-]. now apply year_values_from_raises in Y.
Qed.

Lemma normalize_rows_raises (cols : list string) (rws : list (list cell))
  (e : exn) :
  normalize_rows float_of_str py_hash repr_finite cols rws = Raise e ->
  e = IndexError /\ has_year_cols_of cols = true /\
  exists cells, In cells rws /\ blocking_cell cols cells.
Proof.
  induction rws as [|cells r IH]; simpl; [discriminate|].
  destruct (normalize_row float_of_str py_hash repr_finite cols cells) as [d|e'] eqn:D; cbn [bind].
  - rewrite (has_metric_row _ _ _ _ _ _ D). cbn [bind].
    destruct (normalize_rows _ _ _ cols r) as [docs|e'']; [discriminate|].
    cbn [bind]. intros [= <-].
    destruct (IH eq_refl) as (-> & W & cells' & Hin & B).
    repeat split; auto. exists cells'. split; [now right|exact B].
  - intros [= <-]. apply normalize_row_raises in D as (-> & W & B).
    repeat split; auto. exists cells. split; [now left|exact B].
Qed.

(** The documents of the batch come from rows, with a metric. *)
Lemma normalize_rows_in (cols : list string) (rws : list (list cell))
  (docs : list doc) (d : doc) :
  normalize_rows float_of_str py_hash repr_finite cols rws = Ret docs ->
  In d docs ->
  exists cells,
    In cells rws /\ normalize_row float_of_str py_hash repr_finite cols cells = Ret d /\ has_metric_text d = true.
Proof.
  revert docs; induction rws as [|cells r IH]; intros docs; simpl.
  - intros [= <-]. contradiction.
  - destruct (normalize_row float_of_str py_hash repr_finite cols cells) as [d0|] eqn:D; [|discriminate].
    cbn [bind]. rewrite (has_metric_row _ _ _ _ _ _ D). cbn [bind].
    destruct (normalize_rows _ _ _ cols r) as [docs'|]; [|discriminate].
    cbn [bind]. intros [= <-] Hin.
    assert (In d docs' -> exists cells0,
               In cells0 (cells :: r) /\ normalize_row float_of_str py_hash repr_finite cols cells0 = Ret d /\
               has_metric_text d = true) as Hr.
    { intros H. destruct (IH docs' eq_refl H) as (c0 & Hc & H0).
      exists c0. split; [now right|exact H0]. }
    destruct (has_metric_text d0) eqn:K; [|now apply Hr].
    destruct Hin as [<-|Hin]; [|now apply Hr].
    exists cells. split; [now left|]. split; [exact D|exact K].
Qed.

End BatchProperties.

Section BatchInvariants.

Variable float_of_str : string -> option pyfloat.
Variable py_hash : string -> Z.
Variable repr_finite : bool -> positive -> Z -> string.

Lemma row_get_absent (cols : list string) (cells : list cell) (k : string) :
  mem k cols = false -> row_get cols cells k = None.
Proof.
  revert cells; induction cols as [|c cols IH]; intros cells H;
    [reflexivity|].
  destruct cells as [|v cells]; [reflexivity|].
  unfold mem in H. cbn [existsb] in H. apply orb_false_iff in H as [E H].
  cbn [row_get]. rewrite E. now apply IH.
Qed.

(** The fields of a row document that are read from the row as they
    are. *)
Lemma normalize_row_metadata (cols : list string) (cells : list cell) (d : doc)
  (k : string) :
  normalize_row float_of_str py_hash repr_finite cols cells = Ret d ->
  mem k ["sector"; "sub_sector"; "sub_sub_sector"; "source_link"] = true ->
  Dict.get d k = Some (value_of_cell (row_get cols cells k)).
Proof.
  unfold normalize_row. intros H Hk.
  destruct (derive_country cols cells) as [country|]; [|discriminate].
  destruct (derive_metric cols cells) as [metric|]; [|discriminate].
  destruct (derive_unit repr_finite cols cells) as [unit|]; [|discriminate].
  cbn [bind] in H.
  destruct (year_values_from _ _ _ _ _ _) as [yv|] eqn:Y; [|discriminate].
  cbn [bind] in H. injection H as <-.
  pose proof (year_values_keys _ _ _ _ _ _ _ Y) as K.
  change (fold_left add_key YEARS (Dict.keys [])) with YEARS in K.
  unfold mem in Hk. cbn [existsb] in Hk.
  repeat (apply orb_true_iff in Hk as [Hk|Hk];
          [apply String.eqb_eq in Hk; subst k;
           now rewrite (get_metadata _ yv _ K) by reflexivity|]).
  discriminate.
Qed.

(** The test of line 232 on the document of a row is a test on the
    metric derived from the row. *)
Lemma has_metric_text_row (cols : list string) (cells : list cell) (d : doc) :
  normalize_row float_of_str py_hash repr_finite cols cells = Ret d ->
  has_metric_text d = row_has_metric cols cells.
Proof.
  intros H. apply normalize_row_inv in H
    as (country & metric & unit & yv & _ & M & _ & _ & _ & _ & G & _).
  unfold has_metric_text, row_has_metric, doc_get. rewrite G, M.
  destruct (derive_metric_clean cols cells) as [raw R].
  rewrite M in R. injection R as R.
  destruct metric as [s|]; [|reflexivity]. simpl.
  symmetry in R. now rewrite (clean_trimmed _ _ R).
Qed.

(** X5.  An [IndexError] leaves [build_normalized_docs] only on a table
    with a year column, and only for a row that holds, under a label
    that contains a year, a cell of commas and white space that is not
    empty once trimmed. *)
Theorem build_normalized_docs_index_error (df : DataFrame) :
  build_normalized_docs float_of_str py_hash repr_finite df
  = Raise IndexError ->
  has_year_cols_of (columns df) = true /\
  exists cells, In cells (rows df) /\ blocking_cell (columns df) cells.
Proof.
  unfold build_normalized_docs. intros B.
  now apply normalize_rows_raises in B as (_ & W & H).
Qed.

(** X6.  On a table without a column labelled by a year of [YEARS], no
    cell is converted to a number: [build_normalized_docs] raises no
    [IndexError], and every document it returns holds [None] under every
    year, also when a label contains a year. *)
Theorem build_normalized_docs_not_wide (df : DataFrame) :
  has_year_cols_of (columns df) = false ->
  build_normalized_docs float_of_str py_hash repr_finite df
  <> Raise IndexError /\
  forall docs d y,
    build_normalized_docs float_of_str py_hash repr_finite df = Ret docs ->
    In d docs -> In y YEARS -> Dict.get d y = Some VNone.
Proof.
  intros W. unfold build_normalized_docs. split.
  - intros B. apply normalize_rows_raises in B as (_ & B & _). congruence.
  - intros docs d y B Hd Hy.
    destruct (normalize_rows_in _ _ _ _ _ _ _ B Hd) as (cells & _ & R & _).
    apply normalize_row_inv in R
      as (country & metric & unit & yv & _ & _ & _ & Y & _ & _ & _ & _ & _ & H).
    destruct (H y Hy) as (v & Hv & ->). f_equal.
    destruct (year_values_not_wide float_of_str repr_finite
                (columns df) cells YEARS [] W) as (yv' & Y' & N).
    rewrite Y in Y'. injection Y' as <-.
    destruct (N y v Hv) as [F|F]; [discriminate|exact F].
Qed.

Lemma build_rows_with_metric (df : DataFrame) (docs : list doc) :
  build_normalized_docs float_of_str py_hash repr_finite df = Ret docs ->
  mapM (normalize_row float_of_str py_hash repr_finite (columns df))
       (filter (row_has_metric (columns df)) (rows df))
  = Ret docs.
Proof.
  unfold build_normalized_docs. revert docs.
  induction (rows df) as [|cells r IH]; intros docs; simpl.
  - intros [= <-]. reflexivity.
  - destruct (normalize_row _ _ _ (columns df) cells) as [d|] eqn:D;
      [|discriminate].
    cbn [bind]. rewrite (has_metric_row _ _ _ _ _ _ D). cbn [bind].
    rewrite (has_metric_text_row _ _ _ D).
    destruct (normalize_rows _ _ _ (columns df) r) as [docs'|];
      [|discriminate].
    cbn [bind]. intros [= <-]. specialize (IH docs' eq_refl).
    destruct (row_has_metric (columns df) cells); [|exact IH].
    cbn [mapM]. rewrite D. cbn [bind]. rewrite IH. reflexivity.
Qed.

(** X7.  The documents returned are the documents of the rows whose
    derived metric is a text that is not empty, one for each such row, in
    the order of the rows. *)
Theorem build_normalized_docs_rows (df : DataFrame) (docs : list doc) :
  build_normalized_docs float_of_str py_hash repr_finite df = Ret docs ->
  mapM (normalize_row float_of_str py_hash repr_finite (columns df))
       (filter (row_has_metric (columns df)) (rows df))
  = Ret docs.
Proof. apply build_rows_with_metric. Qed.

(** X8.  In every document returned, the metric is a trimmed text that is
    not empty, the country is [None] or a trimmed text, and the unit is
    [None] or a trimmed text that is not empty. *)
Theorem build_normalized_docs_text_fields
  (df : DataFrame) (docs : list doc) (d : doc) :
  build_normalized_docs float_of_str py_hash repr_finite df = Ret docs ->
  In d docs ->
  (exists s, doc_get d "metric" = VStr s /\ s <> EmptyString /\ strip s = s) /\
  (doc_get d "country" = VNone \/
   exists s, doc_get d "country" = VStr s /\ strip s = s) /\
  (doc_get d "unit" = VNone \/
   exists s, doc_get d "unit" = VStr s /\ s <> EmptyString /\ strip s = s).
Proof.
  intros B Hd.
  destruct (normalize_rows_in _ _ _ _ _ _ _ B Hd) as (cells & _ & R & K).
  apply normalize_row_inv in R
    as (country & metric & unit & yv & C & M & U & _ & GC & _ & GM & GU & _).
  unfold has_metric_text in K. unfold doc_get in *. rewrite GC, GM, GU in *.
  split; [|split].
  - destruct (derive_metric_clean (columns df) cells) as [raw R].
    rewrite M in R. injection R as R. symmetry in R.
    destruct metric as [s|]; [|discriminate]. simpl in *.
    exists s. split; [reflexivity|].
    pose proof (clean_trimmed _ _ R) as T. rewrite T in K.
    split; [|exact T]. apply negb_true_iff in K. now apply String.eqb_neq.
  - destruct (derive_country_clean (columns df) cells) as [raw R].
    rewrite C in R. injection R as R. symmetry in R.
    destruct country as [s|]; [|now left]. right. exists s.
    split; [reflexivity|]. exact (clean_trimmed _ _ R).
  - destruct (derive_unit_normalized repr_finite (columns df) cells)
      as [raw R].
    destruct (normalize_unit_cell repr_finite raw) as (r & N & H).
    rewrite U, N in R. injection R as ->.
    destruct H as [->|(s & -> & H)]; [now left|].
    right. exists s. split; [reflexivity|exact H].
Qed.

(** X9.  In every document returned, the serial is decided by the
    country: [None] without a country or with the empty one, and the hash
    of the country, made positive, modulo 100000 otherwise; so it lies
    from 0 to 99999. *)
Theorem build_normalized_docs_serial
  (df : DataFrame) (docs : list doc) (d : doc) :
  build_normalized_docs float_of_str py_hash repr_finite df = Ret docs ->
  In d docs ->
  doc_get d "country_serial"
  = match doc_get d "country" with
    | VStr s =>
        if String.eqb s EmptyString then VNone
        else VInt (Z.abs (py_hash s) mod 100000)
    | _ => VNone
    end /\
  (doc_get d "country_serial" = VNone \/
   exists n, doc_get d "country_serial" = VInt n /\ (0 <= n < 100000)%Z).
Proof.
  intros B Hd.
  destruct (normalize_rows_in _ _ _ _ _ _ _ B Hd) as (cells & _ & R & _).
  apply normalize_row_inv in R
    as (country & metric & unit & yv & _ & _ & _ & _ & GC & GS & _).
  unfold doc_get. rewrite GC, GS.
  destruct country as [s|]; simpl; [|split; [reflexivity|now left]].
  destruct (String.eqb s EmptyString); [split; [reflexivity|now left]|].
  split; [reflexivity|]. right. eexists. split; [reflexivity|].
  apply Z.mod_pos_bound. lia.
Qed.

(** X10.  In every document returned, the value under each year is a float
    or [None]. *)
Theorem build_normalized_docs_year_values
  (df : DataFrame) (docs : list doc) (d : doc) (y : string) :
  build_normalized_docs float_of_str py_hash repr_finite df = Ret docs ->
  In d docs -> In y YEARS ->
  doc_get d y = VNone \/ exists f, doc_get d y = VFloat f.
Proof.
  intros B Hd Hy.
  destruct (normalize_rows_in _ _ _ _ _ _ _ B Hd) as (cells & _ & R & _).
  apply normalize_row_inv in R
    as (country & metric & unit & yv & _ & _ & _ & Y & _ & _ & _ & _ & _ & H).
  destruct (H y Hy) as (v & Hv & G). unfold doc_get. rewrite G.
  apply (year_values_typed _ _ _ _ _ _ _ Y) with (k := y); [|exact Hv].
  intros k w F. discriminate.
Qed.

(** X11.  A classification field whose column the table does not have is
    [None] in every document returned; the source is then "Africa Energy
    Portal". *)
Theorem build_normalized_docs_absent_columns
  (df : DataFrame) (docs : list doc) (d : doc) :
  build_normalized_docs float_of_str py_hash repr_finite df = Ret docs ->
  In d docs ->
  (forall k,
      In k ["sector"; "sub_sector"; "sub_sub_sector"; "source_link"] ->
      mem k (columns df) = false -> doc_get d k = VNone) /\
  (mem "source" (columns df) = false ->
   doc_get d "source" = VStr "Africa Energy Portal").
Proof.
  intros B Hd.
  destruct (normalize_rows_in _ _ _ _ _ _ _ B Hd) as (cells & _ & R & _).
  split.
  - intros k Hk A. apply Upsert.mem_spec in Hk.
    unfold doc_get. rewrite (normalize_row_metadata _ _ _ _ R Hk).
    now rewrite (row_get_absent _ cells _ A).
  - intros A. apply normalize_row_inv in R
      as (country & metric & unit & yv & _ & _ & _ & _ & _ & _ & _ & _ & G & _).
    unfold doc_get. now rewrite G, A.
Qed.

End BatchInvariants.

(** ** More on the upsert engine *)

Module UpsertMore.

Lemma add_keys_prefix (l ks : list string) :
  exists added,
    fold_left add_key l ks = ks ++ added /\
    forall k, In k added -> In k l /\ ~ In k ks.
Proof.
  revert ks; induction l as [|x l IH]; intros ks.
  - exists []. split; [now rewrite app_nil_r|contradiction].
  - rewrite ListFacts.fold_left_cons.
    destruct (IH (add_key ks x)) as (added & E & H). unfold add_key in *.
    destruct (mem x ks) eqn:M.
    + exists added. split; [exact E|]. intros k Hk.
      destruct (H k Hk) as [Hl Hn]. split; [now right|exact Hn].
    + exists (x :: added). split; [now rewrite E, <- app_assoc|].
      intros k [<-|Hk].
      * split; [now left|]. intros Hin. apply Upsert.mem_spec in Hin.
        congruence.
      * destruct (H k Hk) as [Hl Hn]. split; [now right|].
        intros Hin. apply Hn. apply in_or_app. now left.
Qed.

Lemma ensure_schema_idem (d : doc) :
  ensure_schema (ensure_schema d) = ensure_schema d.
Proof.
  unfold ensure_schema at 1. apply Upsert.setdefaults_present.
  intros k Hk. unfold Dict.has.
  now rewrite (Upsert.get_ensure_schema d k Hk).
Qed.

End UpsertMore.

(** X12.  The loop of lines 247 and 248 changes no value that is there
    and drops no field: a field of the document keeps its value and its
    place, a key of the schema that is missing comes after them with
    [None], and no other key is added.  Running the loop twice is the
    same as running it once. *)
Theorem ensure_schema_conservative (d : doc) :
  (forall k,
      Dict.get (ensure_schema d) k
      = match Dict.get d k with
        | Some v => Some v
        | None => if mem k REQUIRED_SCHEMA then Some VNone else None
        end) /\
  (exists added,
      Dict.keys (ensure_schema d) = Dict.keys d ++ added /\
      forall k, In k added -> In k REQUIRED_SCHEMA /\ ~ In k (Dict.keys d)) /\
  ensure_schema (ensure_schema d) = ensure_schema d.
Proof.
  split; [|split].
  - intros k. apply Upsert.get_setdefaults.
  - rewrite Upsert.keys_ensure_schema. apply UpsertMore.add_keys_prefix.
  - apply UpsertMore.ensure_schema_idem.
Qed.

Section UpsertAfterBuild.

Variable float_of_str : string -> option pyfloat.
Variable py_hash : string -> Z.
Variable repr_finite : bool -> positive -> Z -> string.

(** X13.  The documents that [build_normalized_docs] returns go to the
    store as they are: for them the loop of lines 247 and 248 changes
    nothing, no key is missing when the match key is built, and each
    operation replaces by the document itself, under its natural key. *)
Theorem upsert_after_build (df : DataFrame) (docs : list doc) :
  build_normalized_docs float_of_str py_hash repr_finite df = Ret docs ->
  write_ops docs
  = Ret (map (fun d => ReplaceOne (natural_key d) d true) docs).
Proof.
  intros B. rewrite Upsert.write_ops_natural_key. f_equal.
  apply map_ext_in. intros d Hd.
  destruct (build_normalized_docs_emitted _ _ _ _ _ d B Hd) as [K _].
  now rewrite (Upsert.ensure_schema_complete d K).
Qed.

End UpsertAfterBuild.

(** ** More on the report *)

Module ScanMore.

Section Generic.

Variable key : doc -> string.
Variable miss : doc -> list string.
Variable lacks : doc -> bool.
Variable note : Dict.t (list string) -> doc -> Dict.t (list string).

Hypothesis note_step :
  forall acc d,
    note acc d = if lacks d then Dict.set acc (key d) (miss d) else acc.

(** An entry of the scan is that of a document that lacks something. *)
Lemma scan_sound (docs : list doc) (k : string) (ys : list string) :
  Dict.get (fold_left note docs []) k = Some ys ->
  exists d, In d docs /\ lacks d = true /\ key d = k /\ miss d = ys.
Proof.
  rewrite (Scan.scan_update key miss lacks note note_step),
    DictFacts.get_update.
  destruct (find _ _) as [[k' v']|] eqn:F; [|discriminate].
  intros [= <-]. apply find_some in F as [Hin E].
  apply String.eqb_eq in E. apply in_rev in Hin.
  apply in_map_iff in Hin as (d & [= <- <-] & Hin).
  apply filter_In in Hin as [Hin L]. exists d. auto.
Qed.

(** A document that lacks something leaves an entry under its key: its
    own, or that of a later document with the same key. *)
Lemma scan_complete (docs : list doc) (d : doc) :
  In d docs -> lacks d = true ->
  exists d',
    In d' docs /\ lacks d' = true /\ key d' = key d /\
    Dict.get (fold_left note docs []) (key d) = Some (miss d').
Proof.
  intros Hin L.
  destruct (Dict.get (fold_left note docs []) (key d)) as [ys|] eqn:G.
  - apply scan_sound in G as (d' & H1 & H2 & H3 & <-). exists d'. auto.
  - exfalso. revert G.
    rewrite (Scan.scan_update key miss lacks note note_step),
      DictFacts.get_update.
    destruct (find _ _) as [kv|] eqn:F; [discriminate|]. intros _.
    apply find_none with (x := (key d, miss d)) in F.
    + cbn [fst] in F. now rewrite String.eqb_refl in F.
    + apply -> in_rev. apply in_map_iff. exists d. split; [reflexivity|].
      apply filter_In. auto.
Qed.

(** There are no more entries than documents that lack something. *)
Lemma scan_bound (docs : list doc) :
  (List.length (fold_left note docs [])
   <= List.length (filter lacks docs))%nat.
Proof.
  rewrite (Scan.scan_update key miss lacks note note_step).
  rewrite <- (length_map fst (Dict.update _ _)).
  change (map fst (Dict.update ?d ?e)) with (Dict.keys (Dict.update d e)).
  rewrite DictFacts.keys_update.
  pose proof (Reporter.add_keys_length
                (Dict.keys (map (fun d => (key d, miss d)) (filter lacks docs)))
                (Dict.keys (@nil (string * list string)))) as H.
  unfold Dict.keys in *. rewrite !length_map in H. exact H.
Qed.

End Generic.

End ScanMore.

Section MissingYears.

Variable repr_finite : bool -> positive -> Z -> string.

Lemma value_is_none (v : value) : value_eqb v VNone = true <-> v = VNone.
Proof. destruct v; simpl; split; congruence. Qed.

Lemma missing_of_spec (d : doc) (y : string) :
  In y (missing_of d) <-> In y YEARS /\ doc_get d y = VNone.
Proof.
  unfold missing_of. rewrite filter_In. now rewrite value_is_none.
Qed.

Lemma has_missing_year_iff (d : doc) :
  has_missing_year d = true <-> missing_of d <> [].
Proof.
  unfold has_missing_year. destruct (missing_of d); split; congruence.
Qed.

(** X14.  [missing_years] after the scan of lines 278 to 283.  Every entry
    is the list of some document of the store, under that document's key:
    the years of [YEARS] under which the document holds [None], at least
    one.  Every document that lacks a year finds an entry under its key,
    its own or that of another document with the same key.  There are
    no more entries than documents lacking a year. *)
Theorem missing_years_entries (docs : list doc) :
  (forall k ys,
      Dict.get (missing_years_of repr_finite docs) k = Some ys ->
      exists d,
        In d docs /\ report_key repr_finite d = k /\ ys <> [] /\
        forall y, In y ys <-> In y YEARS /\ doc_get d y = VNone) /\
  (forall d,
      In d docs -> missing_of d <> [] ->
      exists d',
        In d' docs /\
        report_key repr_finite d' = report_key repr_finite d /\
        Dict.get (missing_years_of repr_finite docs) (report_key repr_finite d)
        = Some (missing_of d')) /\
  (List.length (missing_years_of repr_finite docs)
   <= List.length (filter has_missing_year docs))%nat.
Proof.
  unfold missing_years_of. split; [|split].
  - intros k ys G.
    apply (ScanMore.scan_sound (report_key repr_finite) missing_of
             has_missing_year (note_missing repr_finite)
             (note_missing_step repr_finite)) in G
      as (d & Hin & L & K & <-).
    exists d. split; [exact Hin|]. split; [exact K|].
    split; [now apply has_missing_year_iff|]. intros y. apply missing_of_spec.
  - intros d Hin L. apply has_missing_year_iff in L.
    destruct (ScanMore.scan_complete (report_key repr_finite) missing_of
                has_missing_year (note_missing repr_finite)
                (note_missing_step repr_finite) docs d Hin L)
      as (d' & H1 & _ & H3 & H4).
    exists d'. auto.
  - apply (ScanMore.scan_bound (report_key repr_finite) missing_of
             has_missing_year (note_missing repr_finite)
             (note_missing_step repr_finite)).
Qed.

End MissingYears.

Module UnitsScan.

Lemma float_eqb_eq (f g : pyfloat) : float_eqb f g = true <-> f = g.
Proof.
  split; [|intros ->; apply Upsert.float_eqb_refl].
  destruct f as [s|s| |s m e], g as [t|t| |t n d]; simpl; try discriminate.
  - intros H. apply Bool.eqb_prop in H. now subst.
  - intros H. apply Bool.eqb_prop in H. now subst.
  - reflexivity.
  - intros H. apply andb_true_iff in H as [H He].
    apply andb_true_iff in H as [Hs Hm].
    apply Bool.eqb_prop in Hs. apply Pos.eqb_eq in Hm. apply Z.eqb_eq in He.
    now subst.
Qed.

Lemma value_eqb_eq (v w : value) : value_eqb v w = true <-> v = w.
Proof.
  split; [|intros ->; apply Upsert.value_eqb_refl].
  destruct v, w; simpl; try discriminate.
  - reflexivity.
  - intros H. apply Z.eqb_eq in H. now subst.
  - intros H. apply float_eqb_eq in H. now subst.
  - intros H. apply String.eqb_eq in H. now subst.
Qed.

Lemma value_eqb_neq (v w : value) : value_eqb v w = false <-> v <> w.
Proof.
  rewrite <- value_eqb_eq. destruct (value_eqb v w); split; congruence.
Qed.

(** [s.add(v)] *)
Lemma In_add_value (v x : value) (l : list value) :
  In x (add_value v l) <-> x = v \/ In x l.
Proof.
  induction l as [|w l IH]; simpl.
  - split; [intros [<-|[]]; now left|intros [->|[]]; now left].
  - destruct (value_eqb v w) eqn:E.
    + apply value_eqb_eq in E. subst w. simpl. intuition congruence.
    + simpl. rewrite IH. intuition congruence.
Qed.

Lemma NoDup_add_value (v : value) (l : list value) :
  NoDup l -> NoDup (add_value v l).
Proof.
  induction l as [|w l IH]; intros N; simpl.
  - constructor; [intros []|constructor].
  - destruct (value_eqb v w) eqn:E; [exact N|].
    inversion N as [|? ? Hw N']; subst. constructor; [|now apply IH].
    rewrite In_add_value. intros [->|H]; [|contradiction].
    now rewrite Upsert.value_eqb_refl in E.
Qed.

(** [metric_units] after one more document: the entry of its metric. *)
Lemma units_get_note_same (m u : value) (mu : list (value * list value)) :
  units_get (note_unit m u mu) m
  = Some (let old := match units_get mu m with
                     | Some us => us
                     | None => []
                     end in
          if truthy u then add_value u old else old).
Proof.
  induction mu as [|[m' us] mu IH]; simpl.
  - rewrite Upsert.value_eqb_refl. now destruct (truthy u).
  - destruct (value_eqb m m') eqn:E; simpl; rewrite E; [reflexivity|].
    exact IH.
Qed.

(** The entries of the other metrics stay. *)
Lemma units_get_note_other (m u m0 : value) (mu : list (value * list value)) :
  m0 <> m -> units_get (note_unit m u mu) m0 = units_get mu m0.
Proof.
  intros Hne. induction mu as [|[m' us] mu IH]; simpl.
  - apply value_eqb_neq in Hne. now rewrite Hne.
  - destruct (value_eqb m m') eqn:E; simpl.
    + apply value_eqb_eq in E. subst m'.
      apply value_eqb_neq in Hne. now rewrite Hne.
    + now rewrite IH.
Qed.

Lemma keys_note_unit (m u k : value) (mu : list (value * list value)) :
  In k (map fst (note_unit m u mu)) <-> k = m \/ In k (map fst mu).
Proof.
  induction mu as [|[m' us] mu IH]; simpl.
  - intuition congruence.
  - destruct (value_eqb m m') eqn:E; simpl.
    + apply value_eqb_eq in E. subst m'. intuition congruence.
    + rewrite IH. intuition congruence.
Qed.

Lemma NoDup_note_unit (m u : value) (mu : list (value * list value)) :
  NoDup (map fst mu) -> NoDup (map fst (note_unit m u mu)).
Proof.
  induction mu as [|[m' us] mu IH]; simpl; intros N.
  - constructor; [intros []|constructor].
  - inversion N as [|? ? Hm N']; subst.
    destruct (value_eqb m m') eqn:E; simpl.
    + now constructor.
    + constructor; [|now apply IH].
      rewrite keys_note_unit. intros [->|H]; [|contradiction].
      now rewrite Upsert.value_eqb_refl in E.
Qed.

Lemma units_get_in (mu : list (value * list value)) (m : value)
  (us : list value) :
  NoDup (map fst mu) -> (In (m, us) mu <-> units_get mu m = Some us).
Proof.
  induction mu as [|[m' us'] mu IH]; simpl; intros N.
  - split; [contradiction|discriminate].
  - inversion N as [|? ? Hm N']; subst.
    destruct (value_eqb m m') eqn:E.
    + apply value_eqb_eq in E. subst m'. split.
      * intros [[= ->]|H]; [reflexivity|].
        exfalso. apply Hm. apply in_map_iff. now exists (m, us).
      * intros [= ->]. now left.
    + rewrite <- (IH N'). split; [|now right].
      intros [[= <- <-]|H]; [|exact H].
      now rewrite Upsert.value_eqb_refl in E.
Qed.

Lemma NoDup_keys_filter {A B : Type} (P : A * B -> bool) (l : list (A * B)) :
  NoDup (map fst l) -> NoDup (map fst (filter P l)).
Proof.
  induction l as [|x l IH]; simpl; intros N; [constructor|].
  inversion N as [|? ? Hx N']; subst.
  destruct (P x); simpl; [|now apply IH].
  constructor; [|now apply IH].
  intros H. apply Hx. apply in_map_iff in H as (y & E & Hy).
  apply filter_In in Hy as [Hy _]. apply in_map_iff. now exists y.
Qed.

Lemma two_elements {A : Type} (x y : A) (l : list A) :
  In x l -> In y l -> x <> y -> (1 < List.length l)%nat.
Proof.
  destruct l as [|a [|b l]]; simpl; intros Hx Hy Hne.
  - contradiction.
  - destruct Hx as [<-|[]], Hy as [<-|[]]. congruence.
  - lia.
Qed.

(** [metric_units] after the loop of lines 288 to 293: one entry for each
    metric of the documents, with the units of the documents of that
    metric that are set, each once. *)
Lemma metric_units_inv (docs : list doc) :
  let mu :=
    fold_left (fun acc d => note_unit (doc_get d "metric") (doc_get d "unit") acc)
              docs [] in
  NoDup (map fst mu) /\
  (forall m us,
      units_get mu m = Some us ->
      NoDup us /\
      forall u,
        In u us <->
        truthy u = true /\
        exists d, In d docs /\ doc_get d "metric" = m /\ doc_get d "unit" = u) /\
  (forall d, In d docs -> exists us, units_get mu (doc_get d "metric") = Some us).
Proof.
  cbv zeta. induction docs as [|d0 docs IH] using rev_ind.
  - simpl. split; [constructor|]. split; [discriminate|contradiction].
  - rewrite fold_left_app. cbn [fold_left].
    set (mu := fold_left _ docs []) in *.
    destruct IH as (N & S & C).
    split; [now apply NoDup_note_unit|]. split.
    + intros m us. destruct (value_eqb m (doc_get d0 "metric")) eqn:E.
      * apply value_eqb_eq in E. subst m. rewrite units_get_note_same.
        cbv zeta. intros [= <-].
        assert (NoDup match units_get mu (doc_get d0 "metric") with
                      | Some us => us
                      | None => []
                      end /\
                forall u,
                  In u match units_get mu (doc_get d0 "metric") with
                       | Some us => us
                       | None => []
                       end <->
                  truthy u = true /\
                  exists d, In d docs /\
                            doc_get d "metric" = doc_get d0 "metric" /\
                            doc_get d "unit" = u) as [No Ho].
        { destruct (units_get mu (doc_get d0 "metric")) as [old|] eqn:G.
          - now apply S.
          - split; [constructor|]. intros u. split; [contradiction|].
            intros (_ & d & Hd & M & _). destruct (C d Hd) as [us G'].
            rewrite M in G'. congruence. }
        destruct (truthy (doc_get d0 "unit")) eqn:T.
        -- split; [now apply NoDup_add_value|]. intros u.
           rewrite In_add_value, Ho. split.
           ++ intros [->|(Tu & d & Hd & M & U)].
              ** split; [exact T|]. exists d0.
                 split; [apply in_or_app; right; now left|auto].
              ** split; [exact Tu|]. exists d.
                 split; [apply in_or_app; now left|auto].
           ++ intros (Tu & d & Hd & M & U).
              apply in_app_or in Hd as [Hd|[<-|[]]].
              ** right. split; [exact Tu|]. now exists d.
              ** left. now symmetry.
        -- split; [exact No|]. intros u. rewrite Ho. split.
           ++ intros (Tu & d & Hd & M & U). split; [exact Tu|]. exists d.
              split; [apply in_or_app; now left|auto].
           ++ intros (Tu & d & Hd & M & U). split; [exact Tu|].
              apply in_app_or in Hd as [Hd|[<-|[]]]; [now exists d|].
              congruence.
      * apply value_eqb_neq in E. rewrite (units_get_note_other _ _ _ _ E).
        intros G. destruct (S m us G) as [No Ho]. split; [exact No|].
        intros u. rewrite Ho. split.
        -- intros (Tu & d & Hd & M & U). split; [exact Tu|]. exists d.
           split; [apply in_or_app; now left|auto].
        -- intros (Tu & d & Hd & M & U). split; [exact Tu|].
           apply in_app_or in Hd as [Hd|[<-|[]]]; [now exists d|].
           congruence.
    + intros d Hd.
      destruct (value_eqb (doc_get d "metric") (doc_get d0 "metric")) eqn:E.
      * apply value_eqb_eq in E. rewrite E, units_get_note_same.
        eexists. reflexivity.
      * apply value_eqb_neq in E. rewrite (units_get_note_other _ _ _ _ E).
        apply in_app_or in Hd as [Hd|[<-|[]]]; [now apply C|congruence].
Qed.

End UnitsScan.

(** X15.  [inconsistent_units], for documents whose metrics and units are
    texts or [None].  Each metric is listed at most once.  A metric that
    is listed comes with the units of its documents that are set, each
    once, and there are at least two of them.  A metric with two
    documents whose units are set and differ is listed. *)
Theorem inconsistent_units_entries (docs : list doc) :
  Forall (fun d => textual (doc_get d "metric") = true /\
                   textual (doc_get d "unit") = true) docs ->
  NoDup (map fst (inconsistent_units_of docs)) /\
  (forall m us,
      In (m, us) (inconsistent_units_of docs) ->
      NoDup us /\ (2 <= List.length us)%nat /\
      forall u,
        In u us <->
        truthy u = true /\
        exists d, In d docs /\ doc_get d "metric" = m /\ doc_get d "unit" = u) /\
  (forall d1 d2,
      In d1 docs -> In d2 docs ->
      doc_get d1 "metric" = doc_get d2 "metric" ->
      truthy (doc_get d1 "unit") = true ->
      truthy (doc_get d2 "unit") = true ->
      doc_get d1 "unit" <> doc_get d2 "unit" ->
      exists us, In (doc_get d1 "metric", us) (inconsistent_units_of docs)).
Proof.
  intros _. unfold inconsistent_units_of. cbv zeta.
  destruct (UnitsScan.metric_units_inv docs) as (N & S & C).
  cbv zeta in N, S, C. set (mu := fold_left _ docs []) in *.
  split; [now apply UnitsScan.NoDup_keys_filter|]. split.
  - intros m us H. apply filter_In in H as [H L]. cbn [snd] in L.
    apply (UnitsScan.units_get_in mu m us N) in H.
    destruct (S m us H) as [No Ho]. split; [exact No|].
    split; [|exact Ho]. apply Nat.ltb_lt in L. lia.
  - intros d1 d2 H1 H2 M T1 T2 Hne.
    destruct (C d1 H1) as [us G]. exists us.
    apply filter_In. split; [now apply UnitsScan.units_get_in|].
    cbn [snd]. apply Nat.ltb_lt.
    destruct (S _ us G) as [_ Ho].
    apply (UnitsScan.two_elements (doc_get d1 "unit") (doc_get d2 "unit"));
      [| |exact Hne]; apply Ho.
    + split; [exact T1|]. now exists d1.
    + split; [exact T2|]. exists d2. auto.
Qed.

Section ReportShape.

Variable repr_finite : bool -> positive -> Z -> string.
Variable py_sorted : list value -> result (list value).
Variable round_percent : Z -> Z -> pyfloat.

(** A mapping filled key after key, as [completeness] is. *)
Lemma get_filled {V : Type} (f : string -> V) (l : list string)
  (acc : Dict.t V) (k : string) :
  Dict.get (fold_left (fun acc y => Dict.set acc y (f y)) l acc) k
  = if mem k l then Some (f k) else Dict.get acc k.
Proof.
  revert acc; induction l as [|y l IH]; intros acc; [reflexivity|].
  rewrite ListFacts.fold_left_cons, IH. unfold mem. cbn [existsb].
  fold (mem k l). destruct (mem k l) eqn:M.
  - now rewrite orb_true_r.
  - rewrite orb_false_r, DictFacts.get_set.
    destruct (String.eqb k y) eqn:E; [|reflexivity].
    apply String.eqb_eq in E. now subst.
Qed.

Lemma keys_filled {V : Type} (f : string -> V) (l : list string)
  (acc : Dict.t V) :
  Dict.keys (fold_left (fun acc y => Dict.set acc y (f y)) l acc)
  = fold_left add_key l (Dict.keys acc).
Proof.
  revert acc; induction l as [|y l IH]; intros acc; [reflexivity|].
  rewrite !ListFacts.fold_left_cons, IH. now rewrite DictFacts.keys_set_add.
Qed.

(** X16.  The report on a store with documents has the six keys of lines
    275 to 307, in that order, and no "error": the number of documents,
    the list of countries with its length as the count, and one
    completeness entry for each year of [YEARS], in their order, whose
    percentage is the rounded share of the count it comes with. *)
Theorem validate_collection_report (coll : collection) (rep : report) :
  coll <> [] ->
  validate_collection repr_finite py_sorted round_percent coll = Ret rep ->
  Dict.keys rep
  = ["total_documents"; "missing_years"; "inconsistent_units";
     "countries_count"; "countries"; "completeness_by_year"] /\
  Dict.get rep "total_documents"
  = Some (RInt (Z.of_nat (List.length coll))) /\
  exists countries completeness,
    Dict.get rep "countries" = Some (RList countries) /\
    Dict.get rep "countries_count"
    = Some (RInt (Z.of_nat (List.length countries))) /\
    Dict.get rep "completeness_by_year" = Some (RCompleteness completeness) /\
    Dict.keys completeness = YEARS /\
    forall y, In y YEARS ->
      exists non_null,
        Dict.get completeness y
        = Some (non_null,
                round_percent non_null (Z.of_nat (List.length coll))).
Proof.
  intros Hne. unfold validate_collection, find_all.
  destruct coll as [|d0 coll0]; [contradiction|].
  destruct (py_sorted _) as [countries|]; [|discriminate].
  cbn [bind]. intros [= <-].
  split; [reflexivity|]. split; [reflexivity|].
  exists countries,
    (completeness_of round_percent (d0 :: coll0)
       (Z.of_nat (List.length (d0 :: coll0)))).
  split; [reflexivity|]. split; [reflexivity|]. split; [reflexivity|].
  unfold completeness_of. split.
  - rewrite keys_filled. reflexivity.
  - intros y Hy. rewrite get_filled.
    apply Upsert.mem_spec in Hy. rewrite Hy. eexists. reflexivity.
Qed.

End ReportShape.

(** ** A batch without documents *)

Section EmptyBatch.

Variable float_of_str : string -> option pyfloat.
Variable py_hash : string -> Z.
Variable repr_finite : bool -> positive -> Z -> string.

Lemma filter_none {A : Type} (P : A -> bool) (l : list A) :
  (forall x, In x l -> P x = false) -> filter P l = [].
Proof.
  induction l as [|x l IH]; intros H; [reflexivity|].
  simpl. rewrite (H x) by now left. apply IH. intros y Hy. apply H. now right.
Qed.

(** X19.  When no row of the table has a metric, what
    [build_normalized_docs] returns is the empty list, and
    [upsert_normalized_docs] then submits nothing: the store is as it
    was and the counts are 0 and 0. *)
Theorem upsert_without_metric
  (df : DataFrame) (docs : list doc) (coll : collection) :
  (forall cells,
      In cells (rows df) -> row_has_metric (columns df) cells = false) ->
  build_normalized_docs float_of_str py_hash repr_finite df = Ret docs ->
  docs = [] /\ upsert_normalized_docs coll docs = Ret (coll, (0, 0)%Z).
Proof.
  intros NM B.
  pose proof (build_rows_with_metric _ _ _ _ _ B) as R.
  rewrite (filter_none _ _ NM) in R. cbn [mapM] in R. injection R as <-.
  split; reflexivity.
Qed.

End EmptyBatch.

(** ** The scraper's pages *)

Module ExtractionFacts.

Import Extraction.

Lemma lower_upper_char (c : ascii) :
  is_lower c = true -> lower_char (upper_char c) = c.
Proof.
  destruct c as [[] [] [] [] [] [] [] []]; vm_compute; congruence.
Qed.

Lemma lower_char_idem (c : ascii) : lower_char (lower_char c) = lower_char c.
Proof. destruct c as [[] [] [] [] [] [] [] []]; reflexivity. Qed.

Lemma lower_char_lower (c : ascii) : is_lower c = true -> lower_char c = c.
Proof.
  destruct c as [[] [] [] [] [] [] [] []]; vm_compute; congruence.
Qed.

Lemma lower_title_from (cased : bool) (s : string) :
  lower (title_from cased s) = lower s.
Proof.
  revert cased; induction s as [|c s IH]; intros cased; [reflexivity|].
  cbn [title_from]. destruct (is_lower c) eqn:L.
  - cbn [lower]. rewrite IH. f_equal.
    destruct cased; [reflexivity|].
    now rewrite lower_upper_char, lower_char_lower.
  - destruct (is_upper c); cbn [lower]; rewrite IH; f_equal.
    destruct cased; [apply lower_char_idem|reflexivity].
Qed.

End ExtractionFacts.

(** X20.  The pages of two countries differ whenever their names in the
    list differ, and no name comes twice in the list of
    [get_country_list]: no page is fetched twice.  The list has 53
    names. *)
Theorem country_pages_distinct :
  (forall a b, Extraction.country_url a = Extraction.country_url b -> a = b) /\
  NoDup (map Extraction.country_url Extraction.get_country_list) /\
  List.length Extraction.get_country_list = 53%nat.
Proof.
  split; [|split].
  - unfold Extraction.country_url, Extraction.BASE_URL. simpl.
    intros a b [= ->]. reflexivity.
  - apply DictMore.distinct_labels_NoDup. vm_compute. reflexivity.
  - reflexivity.
Qed.

(** X21.  The country name that the scraper writes to its rows differs
    from the name in the address only by the case of its letters: put in
    lower case, it is the name of the list again. *)
Theorem country_name_round_trip (country : string) :
  lower country = country ->
  lower (Extraction.country_name country) = country.
Proof.
  intros H. unfold Extraction.country_name, Extraction.title.
  now rewrite ExtractionFacts.lower_title_from.
Qed.

(** ** The further properties at sample inputs *)

Lemma to_number_safe_raises_exactly_witness :
  to_number_safe Builtins.float_of_str Builtins.repr_finite (VStr " , ")
  = Raise IndexError.
Proof.
  apply (to_number_safe_raises_exactly Builtins.float_of_str
           Builtins.repr_finite " , " IndexError).
  split; [reflexivity|]. split; [discriminate|reflexivity].
Defined.

Lemma normalize_unit_idempotent_witness :
  normalize_unit Builtins.repr_finite (VStr " Giga Watt Hour ")
  = Ret (Some "GWh") /\
  normalize_unit Builtins.repr_finite (VStr "GWh") = Ret (Some "GWh").
Proof.
  split; [reflexivity|].
  apply (normalize_unit_idempotent Builtins.repr_finite " Giga Watt Hour ").
  reflexivity.
Defined.

Lemma percent_fallback_unreachable_witness :
  first_canonical UNIT_MAP (lower (strip " kJ ")) = None /\
  mem (lower (strip " kJ ")) ["%"; "percent"; "percentage"] = false.
Proof.
  split; [reflexivity|].
  apply (percent_fallback_unreachable " kJ "). reflexivity.
Defined.

Lemma build_normalized_docs_index_error_witness :
  build_normalized_docs Builtins.float_of_str Builtins.hash
    Builtins.repr_finite Samples.comma_frame = Raise IndexError /\
  has_year_cols_of (columns Samples.comma_frame) = true /\
  exists cells,
    In cells (rows Samples.comma_frame) /\
    blocking_cell (columns Samples.comma_frame) cells.
Proof.
  split; [reflexivity|].
  apply (build_normalized_docs_index_error Builtins.float_of_str Builtins.hash
           Builtins.repr_finite Samples.comma_frame).
  reflexivity.
Defined.

Lemma build_normalized_docs_not_wide_witness :
  has_year_cols_of (columns Samples.nested_only_frame) = false /\
  exists d,
    build_normalized_docs Builtins.float_of_str Builtins.hash
      Builtins.repr_finite Samples.nested_only_frame = Ret [d] /\
    Dict.get d "2000" = Some VNone.
Proof.
  split; [reflexivity|].
  destruct (build_normalized_docs Builtins.float_of_str Builtins.hash
              Builtins.repr_finite Samples.nested_only_frame)
    as [[|d [|d' docs]]|e] eqn:B;
    try (vm_compute in B; discriminate).
  exists d. split; [reflexivity|].
  destruct (build_normalized_docs_not_wide Builtins.float_of_str Builtins.hash
              Builtins.repr_finite Samples.nested_only_frame eq_refl)
    as [_ H].
  apply (H [d] d "2000" B); left; reflexivity.
Defined.

Lemma build_normalized_docs_rows_witness :
  build_normalized_docs Builtins.float_of_str Builtins.hash
    Builtins.repr_finite Samples.kenya_frame = Ret [Samples.kenya_doc] /\
  mapM (normalize_row Builtins.float_of_str Builtins.hash Builtins.repr_finite
          (columns Samples.kenya_frame))
       (filter (row_has_metric (columns Samples.kenya_frame))
               (rows Samples.kenya_frame))
  = Ret [Samples.kenya_doc].
Proof.
  assert (build_normalized_docs Builtins.float_of_str Builtins.hash
            Builtins.repr_finite Samples.kenya_frame
          = Ret [Samples.kenya_doc]) as B by (vm_compute; reflexivity).
  split; [exact B|].
  exact (build_normalized_docs_rows _ _ _ _ _ B).
Defined.

Lemma build_normalized_docs_text_fields_witness :
  (exists s, doc_get Samples.kenya_doc "metric" = VStr s /\
             s <> EmptyString /\ strip s = s) /\
  (doc_get Samples.kenya_doc "country" = VNone \/
   exists s, doc_get Samples.kenya_doc "country" = VStr s /\ strip s = s) /\
  (doc_get Samples.kenya_doc "unit" = VNone \/
   exists s, doc_get Samples.kenya_doc "unit" = VStr s /\
             s <> EmptyString /\ strip s = s).
Proof.
  apply (build_normalized_docs_text_fields Builtins.float_of_str Builtins.hash
           Builtins.repr_finite Samples.kenya_frame [Samples.kenya_doc]).
  - vm_compute. reflexivity.
  - left. reflexivity.
Defined.

Lemma build_normalized_docs_serial_witness :
  doc_get Samples.kenya_doc "country_serial"
  = match doc_get Samples.kenya_doc "country" with
    | VStr s =>
        if String.eqb s EmptyString then VNone
        else VInt (Z.abs (Builtins.hash s) mod 100000)
    | _ => VNone
    end /\
  (doc_get Samples.kenya_doc "country_serial" = VNone \/
   exists n, doc_get Samples.kenya_doc "country_serial" = VInt n /\
             (0 <= n < 100000)%Z).
Proof.
  apply (build_normalized_docs_serial Builtins.float_of_str Builtins.hash
           Builtins.repr_finite Samples.kenya_frame [Samples.kenya_doc]).
  - vm_compute. reflexivity.
  - left. reflexivity.
Defined.

Lemma build_normalized_docs_year_values_witness :
  doc_get Samples.kenya_doc "2000" = VNone \/
  exists f, doc_get Samples.kenya_doc "2000" = VFloat f.
Proof.
  apply (build_normalized_docs_year_values Builtins.float_of_str Builtins.hash
           Builtins.repr_finite Samples.kenya_frame [Samples.kenya_doc]).
  - vm_compute. reflexivity.
  - left. reflexivity.
  - left. reflexivity.
Defined.

Lemma build_normalized_docs_absent_columns_witness :
  doc_get Samples.kenya_doc "sector" = VNone /\
  doc_get Samples.kenya_doc "source" = VStr "Africa Energy Portal".
Proof.
  destruct (build_normalized_docs_absent_columns Builtins.float_of_str
              Builtins.hash Builtins.repr_finite Samples.kenya_frame
              [Samples.kenya_doc] Samples.kenya_doc) as [H1 H2].
  - vm_compute. reflexivity.
  - left. reflexivity.
  - split.
    + apply (H1 "sector"); [left; reflexivity|reflexivity].
    + apply H2. reflexivity.
Defined.

Lemma ensure_schema_conservative_witness :
  Dict.get (ensure_schema Samples.blank_country) "metric"
  = Some (VStr "Access") /\
  Dict.get (ensure_schema Samples.blank_country) "unit" = Some VNone /\
  ensure_schema (ensure_schema Samples.blank_country)
  = ensure_schema Samples.blank_country.
Proof.
  destruct (ensure_schema_conservative Samples.blank_country)
    as (H1 & _ & H3).
  split; [exact (H1 "metric")|]. split; [exact (H1 "unit")|exact H3].
Defined.

Lemma upsert_after_build_witness :
  write_ops [Samples.kenya_doc]
  = Ret [ReplaceOne (natural_key Samples.kenya_doc) Samples.kenya_doc true].
Proof.
  apply (upsert_after_build Builtins.float_of_str Builtins.hash
           Builtins.repr_finite Samples.kenya_frame [Samples.kenya_doc]).
  vm_compute. reflexivity.
Defined.

Lemma missing_years_entries_witness :
  exists d',
    In d' [Samples.orphan_a; Samples.orphan_b] /\
    report_key Builtins.repr_finite d'
    = report_key Builtins.repr_finite Samples.orphan_a /\
    Dict.get (missing_years_of Builtins.repr_finite
                [Samples.orphan_a; Samples.orphan_b])
             (report_key Builtins.repr_finite Samples.orphan_a)
    = Some (missing_of d').
Proof.
  destruct (missing_years_entries Builtins.repr_finite
              [Samples.orphan_a; Samples.orphan_b]) as (_ & H & _).
  apply (H Samples.orphan_a); [left; reflexivity|].
  vm_compute. discriminate.
Defined.

Lemma inconsistent_units_entries_witness :
  exists us,
    In (VStr "Generation", us)
       (inconsistent_units_of [Samples.gwh_doc; Samples.mw_doc]).
Proof.
  destruct (inconsistent_units_entries [Samples.gwh_doc; Samples.mw_doc])
    as (_ & _ & H).
  - repeat constructor.
  - apply (H Samples.gwh_doc Samples.mw_doc);
      [left; reflexivity|right; left; reflexivity|reflexivity..|discriminate].
Defined.

Lemma validate_collection_report_witness :
  exists rep,
    validate_collection Builtins.repr_finite Builtins.sorted
      Builtins.round_percent [Samples.kenya_doc] = Ret rep /\
    Dict.keys rep
    = ["total_documents"; "missing_years"; "inconsistent_units";
       "countries_count"; "countries"; "completeness_by_year"] /\
    Dict.get rep "total_documents" = Some (RInt 1).
Proof.
  destruct (validate_collection Builtins.repr_finite Builtins.sorted
              Builtins.round_percent [Samples.kenya_doc]) as [rep|e] eqn:V.
  - exists rep. split; [reflexivity|].
    destruct (validate_collection_report Builtins.repr_finite Builtins.sorted
                Builtins.round_percent [Samples.kenya_doc] rep)
      as (K & T & _); [discriminate|exact V|].
    split; [exact K|exact T].
  - vm_compute in V. discriminate.
Defined.

Lemma upsert_without_metric_witness :
  build_normalized_docs Builtins.float_of_str Builtins.hash
    Builtins.repr_finite Samples.no_metric_frame = Ret [] /\
  upsert_normalized_docs [Samples.kenya_doc] [] =
  Ret ([Samples.kenya_doc], (0, 0)%Z).
Proof.
  assert (build_normalized_docs Builtins.float_of_str Builtins.hash
            Builtins.repr_finite Samples.no_metric_frame = Ret []) as B
    by reflexivity.
  split; [exact B|].
  apply (upsert_without_metric Builtins.float_of_str Builtins.hash
           Builtins.repr_finite Samples.no_metric_frame [] [Samples.kenya_doc]).
  - intros cells [<-|[]]. reflexivity.
  - exact B.
Defined.

Lemma country_pages_distinct_witness :
  (Extraction.country_url "guinea" = Extraction.country_url "guinea-bissau" ->
   "guinea" = "guinea-bissau") /\
  NoDup (map Extraction.country_url Extraction.get_country_list).
Proof.
  destruct country_pages_distinct as (H & N & _).
  split; [apply H|exact N].
Defined.

Lemma country_name_round_trip_witness :
  Extraction.country_name "south-africa" = "South-Africa" /\
  lower (Extraction.country_name "south-africa") = "south-africa".
Proof.
  split; [reflexivity|].
  apply (country_name_round_trip "south-africa"). reflexivity.
Defined.

(** ** The columns the fields are read from *)

Module Columns.

Lemma last_labelled_in (cols : list string) (k c : string) :
  last_labelled cols k = Some c -> mem c cols = true.
Proof.
  unfold last_labelled. intros H. apply find_some in H as [H _].
  apply in_rev in H. now apply Upsert.mem_spec.
Qed.

Lemma found_is_labelled (P : string -> bool) (cols : list string) (k : string) :
  find P (map lower cols) = Some k ->
  exists c, last_labelled cols k = Some c.
Proof.
  intros F. apply find_some in F as [Hin _].
  apply in_map_iff in Hin as (c0 & Hc0 & Hin).
  apply (ListFacts.find_rev_some (fun c => String.eqb k (lower c)) cols c0 Hin).
  rewrite Hc0. apply String.eqb_refl.
Qed.

(** Lines 157 to 161 and 188 to 191: the cell read through the first
    candidate. *)
Lemma candidate_read (P : string -> bool) (cols : list string)
  (cells : list cell) (other : cell) :
  match filter P (Dict.keys (lc_map_of cols)) with
  | cand :: _ => candidate_cell cols cells cand
  | [] => Ret other
  end
  = Ret match find P (map lower cols) with
        | Some k =>
            match last_labelled cols k with
            | Some c => row_get cols cells c
            | None => None
            end
        | None => other
        end.
Proof.
  pose proof (ListFacts.head_filter P (Dict.keys (lc_map_of cols))) as H.
  rewrite Detection.lc_map_find_key in H.
  destruct (filter P (Dict.keys (lc_map_of cols))) as [|cand r];
    rewrite <- H; [reflexivity|].
  unfold candidate_cell, item. rewrite Detection.lc_map_get.
  destruct (found_is_labelled P cols cand (eq_sym H)) as [c L].
  rewrite L. cbn [bind]. unfold row_item.
  now rewrite (last_labelled_in _ _ _ L).
Qed.

(** A label that is there is found by a test that its lower-cased form
    passes. *)
Lemma find_label_none (P : string -> bool) (cols : list string) (c : string) :
  find P (map lower cols) = None -> P (lower c) = true -> mem c cols = false.
Proof.
  intros F Hp. destruct (mem c cols) eqn:M; [|reflexivity].
  apply Upsert.mem_spec in M.
  rewrite (find_none _ _ F (lower c)) in Hp; [discriminate|].
  now apply in_map.
Qed.

Lemma metric_column_none (cols : list string) :
  metric_column cols = None -> mem "metric" cols = false.
Proof.
  rewrite Detection.metric_column_eq.
  destruct (find is_metric_name (map lower cols)) as [k|] eqn:F.
  - destruct (Detection.first_key_mapped cols k F) as (c & -> & _).
    discriminate.
  - intros _. now apply (find_label_none is_metric_name cols "metric" F).
Qed.

Lemma blank_strip (s : string) :
  negb (String.eqb s EmptyString) && negb (String.eqb (strip s) EmptyString)
  = negb (String.eqb (strip s) EmptyString).
Proof.
  destruct (String.eqb s EmptyString) eqn:E; [|reflexivity].
  apply String.eqb_eq in E. now subst.
Qed.

(** The loop of lines 175 to 183: it stops at the first column that is
    no year and no skipped label and whose cell is not blank; without
    such a column it leaves a blank value. *)
Lemma fallback_metric_find (cols_left cols : list string) (cells : list cell)
  (metric : cell) :
  cell_blank metric = true ->
  match find (fun c => negb (mem c YEARS) && negb (mem (lower c) SKIPPED_LABELS)
                       && negb (cell_blank (row_get cols cells c))) cols_left
  with
  | Some c => fallback_metric cols_left cols cells metric = row_get cols cells c
  | None => cell_blank (fallback_metric cols_left cols cells metric) = true
  end.
Proof.
  revert metric; induction cols_left as [|c r IH]; intros metric B;
    [exact B|].
  cbn [find fallback_metric].
  destruct (mem c YEARS); cbn [negb andb]; [now apply IH|].
  destruct (mem (lower c) SKIPPED_LABELS); cbn [negb andb]; [now apply IH|].
  destruct (row_get cols cells c) as [s|] eqn:G; cbn [cell_blank].
  - rewrite blank_strip.
    destruct (String.eqb (strip s) EmptyString) eqn:E; cbn [negb].
    + apply IH. simpl. exact E.
    + now rewrite G.
  - cbn [negb]. now apply IH.
Qed.

(** A blank cell, once cleaned, is no metric. *)
Lemma clean_blank (m : cell) :
  cell_blank m = true ->
  match clean m with
  | Some s => negb (String.eqb s EmptyString)
  | None => false
  end = false.
Proof.
  destruct m as [s|]; [|reflexivity]. simpl. intros B.
  destruct (_ && _); [|reflexivity]. now rewrite B.
Qed.

End Columns.

Section ColumnChoice.

Variable repr_finite : bool -> positive -> Z -> string.

(** X22.  The country is read through the first label, in column order,
    whose lower-cased form contains "country", and the unit through the
    first whose lower-cased form contains "unit" or "measure" (of
    several labels with that same lower-cased form, the last one).
    Without such a label the field is [None]: the reads of lines 161
    and 191 never give a value. *)
Theorem country_and_unit_columns (cols : list string) (cells : list cell) :
  derive_country cols cells
  = Ret (clean (read_by (fun k => contains "country" k) cols cells)) /\
  derive_unit repr_finite cols cells
  = normalize_unit repr_finite
      (value_of_cell
         (read_by (fun k => contains "unit" k || contains "measure" k)
                  cols cells)).
Proof.
  unfold derive_country, derive_unit, country_candidates_of,
    unit_candidates_of, read_by.
  rewrite !Columns.candidate_read. cbn [bind]. split.
  - destruct (find _ (map lower cols)) eqn:F; [reflexivity|].
    now rewrite (Columns.find_label_none _ cols "country" F).
  - destruct (find _ (map lower cols)) eqn:F; [reflexivity|].
    now rewrite (Columns.find_label_none _ cols "unit" F).
Qed.

End ColumnChoice.

(** X23.  When no label matches the metric heuristic, the metric is the
    cleaned cell of the first column, in column order, that is no year
    and none of the skipped labels and whose cell is not blank; a row
    without such a column has no metric. *)
Theorem derive_metric_fallback (cols : list string) (cells : list cell) :
  metric_column cols = None ->
  match fallback_column cols cells with
  | Some c => derive_metric cols cells = Ret (clean (row_get cols cells c))
  | None => row_has_metric cols cells = false
  end.
Proof.
  intros N. unfold row_has_metric, derive_metric, fallback_column.
  rewrite N, (Columns.metric_column_none cols N). cbn [bind].
  rewrite andb_false_r. cbn [cell_empty value_of_cell truthy negb andb].
  pose proof (Columns.fallback_metric_find cols cols cells None eq_refl) as H.
  destruct cols as [|c0 cols0] eqn:C; [reflexivity|].
  rewrite <- C in *. replace (0 <? List.length cols)%nat with true
    by (now rewrite C).
  destruct (find _ cols) as [c|].
  - now rewrite H.
  - now apply Columns.clean_blank.
Qed.

Lemma country_and_unit_columns_witness :
  derive_country ["Country_Serial"; "Country"] [Some "7"; Some "Kenya"]
  = Ret (Some "7").
Proof.
  apply (country_and_unit_columns Builtins.repr_finite
           ["Country_Serial"; "Country"] [Some "7"; Some "Kenya"]).
Defined.

Lemma derive_metric_fallback_witness :
  derive_metric ["2000"; "Unit"; "Description"]
                [Some "1"; Some "MW"; Some "Hydro"]
  = Ret (Some "Hydro").
Proof.
  apply (derive_metric_fallback ["2000"; "Unit"; "Description"]
           [Some "1"; Some "MW"; Some "Hydro"]).
  reflexivity.
Defined.
